(** * Apollo.io MCP bridge: shallow embedding and checked properties

    The development follows the two TypeScript sources of the bridge:
    - [apollo-client.ts]: the helper [stripUrl] and the class [ApolloClient]
      (eight operations and the private [formatQueryParams]);
    - [index.ts]: [sanitizeRanges] and the call-tool request handler.

    JavaScript values are embedded as a first-order datatype, objects as
    association lists in property order, and the effects of the code
    (outbound HTTP requests, console output, exceptions) as a small
    state-and-exception monad over an explicit world. *)

From Stdlib Require Import List String Ascii ZArith Bool Lia.
From Stdlib Require Import Numbers.DecimalString.
Import ListNotations.
Open Scope string_scope.
Open Scope list_scope.

Notation "s1 +++ s2" := (String.append s1 s2)
  (at level 60, right associativity).

(* ================================================================= *)
(** ** JavaScript values *)

Module JS.

(** Runtime values reachable through JSON plus [undefined].  Numbers are
    the integers (HTTP statuses, page numbers, revenue bounds); strings are
    sequences of 8-bit code units.  An object is the list of its
    properties in [Object.entries] order; a well-formed object has
    pairwise distinct keys. *)
#[warnings="-register-all"]
Inductive jsval : Type :=
| JUndefined
| JNull
| JBool (b : bool)
| JNum (n : Z)
| JStr (s : string)
| JArr (items : list jsval)
| JObj (props : list (string * jsval)).

Definition obj : Type := list (string * jsval).

(** [ToBoolean]. *)
Definition truthy (v : jsval) : bool :=
  match v with
  | JUndefined | JNull => false
  | JBool b => b
  | JNum n => negb (n =? 0)%Z
  | JStr s => negb (s =? "")
  | JArr _ | JObj _ => true
  end.

(** [v === undefined || v === null]. *)
Definition nullish (v : jsval) : bool :=
  match v with
  | JUndefined | JNull => true
  | _ => false
  end.

Definition isArray (v : jsval) : bool :=
  match v with
  | JArr _ => true
  | _ => false
  end.

(** Strict equality [a === b].  Arrays and objects compare by reference;
    every use below compares a value taken from the caller's arguments with
    a value taken from an upstream response, which are never the same
    reference. *)
Definition strict_eq (a b : jsval) : bool :=
  match a, b with
  | JUndefined, JUndefined => true
  | JNull, JNull => true
  | JBool x, JBool y => Bool.eqb x y
  | JNum x, JNum y => (x =? y)%Z
  | JStr x, JStr y => (x =? y)
  | _, _ => false
  end.

(** Own-property lookup on an object's property list; [None] when the
    object has no such property. *)
Fixpoint obj_lookup (o : obj) (k : string) : option jsval :=
  match o with
  | [] => None
  | (k', v) :: o' => if k' =? k then Some v else obj_lookup o' k
  end.

(** The property read [o[k]]: [undefined] for a missing property. *)
Definition obj_get (o : obj) (k : string) : jsval :=
  match obj_lookup o k with
  | Some v => v
  | None => JUndefined
  end.

(** Assignment [o[k] = v]: overwrite in place, or append a new property. *)
Fixpoint obj_set (o : obj) (k : string) (v : jsval) : obj :=
  match o with
  | [] => [(k, v)]
  | (k', v') :: o' =>
      if k' =? k then (k', v) :: o' else (k', v') :: obj_set o' k v
  end.

Definition Z_to_string (n : Z) : string := NilZero.string_of_int (Z.to_int n).

Definition join (sep : string) (parts : list string) : string :=
  String.concat sep parts.

(** [ToString], as applied by template literals. *)
Fixpoint to_string (v : jsval) : string :=
  match v with
  | JUndefined => "undefined"
  | JNull => "null"
  | JBool true => "true"
  | JBool false => "false"
  | JNum n => Z_to_string n
  | JStr s => s
  | JArr items =>
      join "," (map (fun x => if nullish x then "" else to_string x) items)
  | JObj _ => "[object Object]"
  end.

(** *** [JSON.stringify(v, null, 2)] *)

Definition hex_digit (n : nat) : ascii :=
  ascii_of_nat (if Nat.ltb n 10 then 48 + n else 87 + n).

Definition dquote : string := String (ascii_of_nat 34) "".
Definition newline : string := String (ascii_of_nat 10) "".

Definition quote_char (c : ascii) : string :=
  let n := nat_of_ascii c in
  if Nat.eqb n 34 then "\" +++ dquote
  else if Nat.eqb n 92 then "\\"
  else if Nat.eqb n 8 then "\b"
  else if Nat.eqb n 12 then "\f"
  else if Nat.eqb n 10 then "\n"
  else if Nat.eqb n 13 then "\r"
  else if Nat.eqb n 9 then "\t"
  else if Nat.ltb n 32 then
    "\u00" +++ String (hex_digit (n / 16)) (String (hex_digit (n mod 16)) "")
  else String c "".

Fixpoint quote_body (s : string) : string :=
  match s with
  | EmptyString => ""
  | String c s' => quote_char c +++ quote_body s'
  end.

Definition quote (s : string) : string := dquote +++ quote_body s +++ dquote.

Definition bracketed (open close indent inner : string) (parts : list string)
  : string :=
  match parts with
  | [] => open +++ close
  | _ => open +++ newline +++ inner
         +++ join ("," +++ newline +++ inner) parts
         +++ newline +++ indent +++ close
  end.

(** Serialisation at a given current indentation; [None] is the
    [undefined] that [JSON.stringify] returns for an [undefined] input. *)
Fixpoint stringify_at (indent : string) (v : jsval) : option string :=
  match v with
  | JUndefined => None
  | JNull => Some "null"
  | JBool true => Some "true"
  | JBool false => Some "false"
  | JNum n => Some (Z_to_string n)
  | JStr s => Some (quote s)
  | JArr items =>
      let inner := indent +++ "  " in
      Some (bracketed "[" "]" indent inner
              (map (fun x => match stringify_at inner x with
                             | Some s => s
                             | None => "null"
                             end) items))
  | JObj props =>
      let inner := indent +++ "  " in
      Some (bracketed "{" "}" indent inner
              (flat_map (fun kv => match stringify_at inner (snd kv) with
                                   | Some s => [quote (fst kv) +++ ": " +++ s]
                                   | None => []
                                   end) props))
  end.

Definition stringify (v : jsval) : option string := stringify_at "" v.

End JS.
Export JS.

(* ================================================================= *)
(** ** Effects: HTTP, console, exceptions *)

Module Eff.

Inductive http_method : Type := GET | POST.

(** One outbound axios call: method, URL, request body (second argument of
    [post]), [config.params] and the headers set by the code. *)
Record request : Type := mkRequest {
  req_method : http_method;
  req_url : string;
  req_body : option jsval;
  req_params : option obj;
  req_headers : list (string * string) }.

Record response : Type := mkResponse {
  status : Z;
  statusText : string;
  data : jsval }.

Inductive exn_class : Type :=
| ErrorClass
| TypeErrorClass
| AxiosErrorClass
| McpErrorClass (code : Z).

(** A thrown [Error] object: its class, its [message], and the [response]
    field that axios attaches when the upstream answered. *)
Record exn : Type := mkExn {
  exn_class_of : exn_class;
  message : string;
  exn_response : option response }.

Definition Error (msg : string) : exn := mkExn ErrorClass msg None.
Definition TypeError (msg : string) : exn := mkExn TypeErrorClass msg None.

(** The promise returned by an axios call either resolves with a response
    or rejects with an error. *)
Inductive axios_result : Type :=
| Resolved (r : response)
| Rejected (e : exn).

Inductive log_arg : Type :=
| LStr (s : string)
| LVal (v : jsval)
| LExn (e : exn).

Inductive stream : Type := Stdout | Stderr.

(** The world a call runs in.  [upstream] is the answer of the network to a
    request given the requests sent before it; [sent] and [console] record
    what the code did, oldest first. *)
Record world : Type := mkWorld {
  upstream : list request -> request -> axios_result;
  clock : Z;
  sent : list request;
  console : list (stream * list log_arg) }.

Inductive outcome (A : Type) : Type :=
| Ret (a : A)
| Throw (e : exn).
Arguments Ret {A} a.
Arguments Throw {A} e.

Definition M (A : Type) : Type := world -> outcome A * world.

Definition ret {A} (a : A) : M A := fun w => (Ret a, w).

Definition throw {A} (e : exn) : M A := fun w => (Throw e, w).

Definition bind {A B} (m : M A) (k : A -> M B) : M B :=
  fun w => match m w with
           | (Ret a, w') => k a w'
           | (Throw e, w') => (Throw e, w')
           end.

(** [try { m } catch (error) { h error }]. *)
Definition try_catch {A} (m : M A) (h : exn -> M A) : M A :=
  fun w => match m w with
           | (Ret a, w') => (Ret a, w')
           | (Throw e, w') => h e w'
           end.

Definition lift {A} (o : outcome A) : M A := fun w => (o, w).

Definition emit (s : stream) (args : list log_arg) (w : world) : world :=
  mkWorld (upstream w) (clock w) (sent w) (console w ++ [(s, args)]).

Definition append_console (lines : list (stream * list log_arg)) (w : world)
  : world :=
  mkWorld (upstream w) (clock w) (sent w) (console w ++ lines).

Definition console_error (args : list log_arg) : M unit :=
  fun w => (Ret tt, emit Stderr args w).

Definition console_log (args : list log_arg) : M unit :=
  fun w => (Ret tt, emit Stdout args w).

Definition record_request (r : request) (w : world) : world :=
  mkWorld (upstream w) (clock w) (sent w ++ [r]) (console w).

(** [await axios(...)]: the request is recorded, then the promise settles. *)
Definition axios_send (r : request) : M response :=
  fun w => match upstream w (sent w) r with
           | Resolved resp => (Ret resp, record_request r w)
           | Rejected e => (Throw e, record_request r w)
           end.

Definition date_now : M Z := fun w => (Ret (clock w), w).

(** Throw unless the condition holds. *)
Definition guard (ok : bool) (e : exn) : M unit :=
  if ok then ret tt else throw e.

End Eff.
Export Eff.

Notation "x <- m ;; k" := (bind m (fun x => k))
  (at level 61, m at next level, right associativity).
Notation "m ;; k" := (bind m (fun _ => k))
  (at level 61, right associativity).

(** Property read [v.k].  Reading a property of [undefined] or [null]
    throws; primitives have no own data properties besides the length of a
    string.  The message text is the engine's and nothing depends on it. *)
Definition get_prop (v : jsval) (k : string) : outcome jsval :=
  match v with
  | JUndefined | JNull =>
      Throw (TypeError ("Cannot read properties of " +++ to_string v
                        +++ " (reading '" +++ k +++ "')"))
  | JObj props => Ret (obj_get props k)
  | JArr items =>
      Ret (if k =? "length" then JNum (Z.of_nat (List.length items))
           else JUndefined)
  | JStr s =>
      Ret (if k =? "length" then JNum (Z.of_nat (String.length s))
           else JUndefined)
  | JBool _ | JNum _ => Ret JUndefined
  end.

(* ================================================================= *)
(** ** String helpers used by the sources *)

Module Str.

Fixpoint strip_prefix (p s : string) : option string :=
  match p with
  | EmptyString => Some s
  | String a p' =>
      match s with
      | EmptyString => None
      | String b s' => if Ascii.eqb a b then strip_prefix p' s' else None
      end
  end.

(** [s.replace(/^https?:\/\//, "")]: the pattern is case-sensitive. *)
Definition remove_protocol (s : string) : string :=
  match strip_prefix "https://" s with
  | Some r => r
  | None => match strip_prefix "http://" s with
            | Some r => r
            | None => s
            end
  end.

(** [s.replace(/^www\./, "")]. *)
Definition remove_www (s : string) : string :=
  match strip_prefix "www." s with
  | Some r => r
  | None => s
  end.

(** [s.replace(/\/$/, "")]: one slash, at the very end. *)
Fixpoint remove_trailing_slash (s : string) : string :=
  match s with
  | EmptyString => EmptyString
  | String c EmptyString => if Ascii.eqb c "/" then EmptyString else s
  | String c s' => String c (remove_trailing_slash s')
  end.

Definition lower_ascii (c : ascii) : ascii :=
  let n := nat_of_ascii c in
  if Nat.leb 65 n && Nat.leb n 90 then ascii_of_nat (n + 32) else c.

(** [s.toLowerCase()] on the ASCII letters. *)
Fixpoint toLowerCase (s : string) : string :=
  match s with
  | EmptyString => EmptyString
  | String c s' => String (lower_ascii c) (toLowerCase s')
  end.

(** [s.includes(c)] for a one-character needle. *)
Fixpoint includes (c : ascii) (s : string) : bool :=
  match s with
  | EmptyString => false
  | String a s' => Ascii.eqb a c || includes c s'
  end.

(** [s.replace(c, d)] with string arguments: the first occurrence only. *)
Fixpoint replace_first (c d : ascii) (s : string) : string :=
  match s with
  | EmptyString => EmptyString
  | String a s' =>
      if Ascii.eqb a c then String d s' else String a (replace_first c d s')
  end.

(** [s.split(c)]. *)
Fixpoint split (c : ascii) (s : string) : list string :=
  match s with
  | EmptyString => [EmptyString]
  | String a s' =>
      if Ascii.eqb a c then EmptyString :: split c s'
      else match split c s' with
           | h :: t => String a h :: t
           | [] => [String a EmptyString]
           end
  end.

Definition is_space (c : ascii) : bool :=
  let n := nat_of_ascii c in
  Nat.eqb n 32 || (Nat.leb 9 n && Nat.leb n 13).

Fixpoint trim_start (s : string) : string :=
  match s with
  | EmptyString => EmptyString
  | String c s' => if is_space c then trim_start s' else s
  end.

Fixpoint trim_end (s : string) : string :=
  match s with
  | EmptyString => EmptyString
  | String c s' =>
      match trim_end s' with
      | EmptyString => if is_space c then EmptyString else String c EmptyString
      | t => String c t
      end
  end.

(** [s.trim()] on ASCII white space. *)
Definition trim (s : string) : string := trim_end (trim_start s).

End Str.

(* ================================================================= *)
(** ** apollo-client.ts *)

Module ApolloClient.

(** [stripUrl].  A falsy argument gives [undefined].  The string methods
    exist on strings only: for any other truthy value [url.replace] is not
    a function, the [catch] branch logs and returns the argument as it
    came. *)
Definition stripUrl (url : jsval) : M jsval :=
  if negb (truthy url) then ret JUndefined
  else
    try_catch
      (match url with
       | JStr s =>
           let stripped := Str.remove_protocol s in
           let stripped := Str.remove_www stripped in
           let stripped := Str.remove_trailing_slash stripped in
           let stripped := Str.toLowerCase stripped in
           ret (JStr stripped)
       | _ => throw (TypeError "url.replace is not a function")
       end)
      (fun error =>
         console_error [LStr "Error stripping URL:"; LExn error] ;;
         ret url).

(** The fields of the class that the operations read. *)
Record t : Type := mkClient {
  apiKey : string;
  baseUrl : string;
  headers : list (string * string) }.

(** The constructor: [apiKey || process.env.APOLLO_IO_API_KEY || ""]. *)
Definition new (apiKey env : option string) : outcome t :=
  let pick (o : option string) : option string :=
    match o with
    | Some s => if s =? "" then None else Some s
    | None => None
    end in
  let key := match pick apiKey with
             | Some s => s
             | None => match pick env with
                       | Some s => s
                       | None => ""
                       end
             end in
  if key =? "" then
    Throw (Error "APOLLO_IO_API_KEY environment variable is required")
  else
    Ret (mkClient key "https://api.apollo.io/api/v1"
           [("Content-Type", "application/json");
            ("Cache-Control", "no-cache");
            ("x-api-key", key)]).

(** [this.axiosInstance.post(url, body, { params })] and [.get]: the URLs
    passed are absolute, so the instance contributes its headers only. *)
Definition instance_post (c : t) (url : string) (body : jsval)
    (params : option obj) : M response :=
  axios_send (mkRequest POST url (Some body) params (headers c)).

Definition instance_get (c : t) (url : string) (params : option obj)
  : M response :=
  axios_send (mkRequest GET url None params (headers c)).

(** [axios.post(url, body, { headers })] on the global axios. *)
Definition axios_post (url : string) (body : jsval)
    (hs : list (string * string)) : M response :=
  axios_send (mkRequest POST url (Some body) None hs).

(** The block after [await] that six operations repeat verbatim:
    [if (response.status === 200) return response.data; else log, null]. *)
Definition on_response (response : response) : M jsval :=
  if (status response =? 200)%Z then ret (data response)
  else
    console_error
      [LStr ("Error: " +++ Z_to_string (status response) +++ " - "
             +++ statusText response)] ;;
    ret JNull.

(** The text of the [catch] block's log line:
    [error.response?.status] and
    [error.response?.statusText || error.message]. *)
Definition error_line (error : exn) : string :=
  "Error: "
  +++ match exn_response error with
      | Some r => Z_to_string (status r)
      | None => "undefined"
      end
  +++ " - "
  +++ match exn_response error with
      | Some r => if statusText r =? "" then message error else statusText r
      | None => message error
      end.

(** The [catch] block those six operations repeat verbatim. *)
Definition on_error (error : exn) : M jsval :=
  console_error [LStr (error_line error)] ;;
  ret JNull.

Definition peopleEnrichment (c : t) (query : obj) : M jsval :=
  try_catch
    (let url := baseUrl c +++ "/people/match" in
     console_log [LStr "url"; LVal (JStr url)] ;;
     console_log [LStr "query"; LVal (JObj query)] ;;
     response <- instance_post c url (JObj query) None ;;
     on_response response)
    on_error.

Definition bulkPeopleEnrichment (c : t) (query : obj) : M jsval :=
  try_catch
    (let url := baseUrl c +++ "/people/bulk_match" in
     response <- instance_post c url (JObj query) None ;;
     on_response response)
    on_error.

Definition organizationEnrichment (c : t) (query : obj) : M jsval :=
  try_catch
    (let url := baseUrl c +++ "/organizations/enrich" in
     response <- instance_get c url (Some query) ;;
     on_response response)
    on_error.

(** *** [formatQueryParams] *)

(** The body of [value.forEach]: create the array under [paramKey] unless
    something truthy is there, then [push].  A truthy non-array has no
    [push]. *)
Definition push_param (paramKey : string) (formattedParams : obj)
    (item : jsval) : outcome obj :=
  let formattedParams :=
    if negb (truthy (obj_get formattedParams paramKey))
    then obj_set formattedParams paramKey (JArr [])
    else formattedParams in
  match obj_get formattedParams paramKey with
  | JArr l => Ret (obj_set formattedParams paramKey (JArr (l ++ [item])))
  | _ => Throw (TypeError "formattedParams[paramKey].push is not a function")
  end.

Fixpoint push_all (paramKey : string) (formattedParams : obj)
    (items : list jsval) : outcome obj :=
  match items with
  | [] => Ret formattedParams
  | item :: rest =>
      match push_param paramKey formattedParams item with
      | Ret formattedParams' => push_all paramKey formattedParams' rest
      | Throw e => Throw e
      end
  end.

(** The inner loop over the entries of a nested object. *)
Fixpoint set_subfields (key : string) (formattedParams : obj)
    (fields : obj) : obj :=
  match fields with
  | [] => formattedParams
  | (subKey, subValue) :: rest =>
      set_subfields key
        (if negb (nullish subValue)
         then obj_set formattedParams (key +++ "[" +++ subKey +++ "]") subValue
         else formattedParams)
        rest
  end.

(** One iteration of the outer loop: [continue] on null or undefined, the
    [Array.isArray] branch, the [typeof value === "object"] branch, and
    the regular parameters. *)
Definition format_entry (formattedParams : obj) (entry : string * jsval)
  : outcome obj :=
  let (key, value) := entry in
  if nullish value then Ret formattedParams
  else
    match value with
    | JArr items => push_all (key +++ "[]") formattedParams items
    | JObj fields => Ret (set_subfields key formattedParams fields)
    | _ => Ret (obj_set formattedParams key value)
    end.

Fixpoint format_entries (formattedParams : obj) (entries : obj)
  : outcome obj :=
  match entries with
  | [] => Ret formattedParams
  | entry :: rest =>
      match format_entry formattedParams entry with
      | Ret formattedParams' => format_entries formattedParams' rest
      | Throw e => Throw e
      end
  end.

Definition formatQueryParams (query : obj) : outcome obj :=
  format_entries [] query.

Definition peopleSearch (c : t) (query : obj) : M jsval :=
  try_catch
    (let url := baseUrl c +++ "/mixed_people/search" in
     formattedParams <- lift (formatQueryParams query) ;;
     response <- instance_post c url (JObj []) (Some formattedParams) ;;
     on_response response)
    on_error.

Definition organizationSearch (c : t) (query : obj) : M jsval :=
  try_catch
    (let url := baseUrl c +++ "/mixed_companies/search" in
     formattedParams <- lift (formatQueryParams query) ;;
     response <- instance_post c url (JObj []) (Some formattedParams) ;;
     on_response response)
    on_error.

Definition organizationJobPostings (c : t) (organizationId : jsval)
  : M jsval :=
  try_catch
    (let url := baseUrl c +++ "/organizations/" +++ to_string organizationId
                +++ "/job_postings" in
     response <- instance_get c url None ;;
     on_response response)
    on_error.

(** *** [getPersonEmail] *)

(** [xs.map(item => item.email)]: stops at the first item whose property
    read throws. *)
Fixpoint map_email (items : list jsval) : outcome (list jsval) :=
  match items with
  | [] => Ret []
  | item :: rest =>
      match get_prop item "email" with
      | Ret email =>
          match map_email rest with
          | Ret emails => Ret (email :: emails)
          | Throw e => Throw e
          end
      | Throw e => Throw e
      end
  end.

Definition key_headers (c : t) : list (string * string) :=
  [("X-Api-Key", apiKey c); ("Content-Type", "application/json")].

Definition getPersonEmail (c : t) (apolloId : jsval) : M jsval :=
  try_catch
    (guard (truthy apolloId) (Error "Apollo ID is required") ;;
     let baseUrl :=
       "https://app.apollo.io/api/v1/mixed_people/add_to_my_prospects" in
     now <- date_now ;;
     let payload :=
       JObj [("entity_ids", JArr [apolloId]);
             ("analytics_context", JStr "Searcher: Individual Add Button");
             ("skip_fetching_people", JBool true);
             ("cta_name", JStr "Access email");
             ("cacheKey", JNum now)] in
     response <- axios_post baseUrl payload (key_headers c) ;;
     guard (truthy (data response))
       (Error "No data received from Apollo API") ;;
     contacts <- lift (get_prop (data response) "contacts") ;;
     match (if nullish contacts then JArr [] else contacts) with
     | JArr items =>
         emails <- lift (map_email items) ;;
         ret (JArr emails)
     | _ => throw (TypeError "(intermediate value).map is not a function")
     end)
    (fun error =>
       console_error
         [LStr ("Error getting person email: " +++ message error)] ;;
       ret JNull).

(** *** [employeesOfCompany] *)

Definition search_headers (c : t) : list (string * string) :=
  [("Content-Type", "application/json"); ("X-Api-Key", apiKey c)].

(** The callback given to [organizations.filter]. *)
Definition url_matches (strippedLinkedinUrl strippedWebsiteUrl item : jsval)
  : M bool :=
  l <- lift (get_prop item "linkedin_url") ;;
  companyLinkedin <- stripUrl l ;;
  s <- lift (get_prop item "website_url") ;;
  companyWebsite <- stripUrl s ;;
  if truthy strippedLinkedinUrl && truthy companyLinkedin
     && strict_eq companyLinkedin strippedLinkedinUrl
  then ret true
  else if truthy strippedWebsiteUrl && truthy companyWebsite
          && strict_eq companyWebsite strippedWebsiteUrl
  then ret true
  else ret false.

(** [items.filter(callback)], the callback run on each item in order. *)
Fixpoint filter_items (callback : jsval -> M bool) (items : list jsval)
  : M (list jsval) :=
  match items with
  | [] => ret []
  | item :: rest =>
      keep <- callback item ;;
      kept <- filter_items callback rest ;;
      ret (if keep then item :: kept else kept)
  end.

(** [(value ?? "").split(",").map(item => item.trim())] for a truthy
    [value]; only strings have [split]. *)
Definition split_trim (value : jsval) : outcome jsval :=
  match value with
  | JStr s => Ret (JArr (map (fun item => JStr (Str.trim item))
                           (Str.split "," s)))
  | _ => Throw (TypeError "(intermediate value).split is not a function")
  end.

(** The people-search payload, with the two optional filters. *)
Definition people_payload (query : obj) (companyId : jsval) : outcome obj :=
  let peopleSearchPayload :=
    [("organization_ids", JArr [companyId]);
     ("page", JNum 1);
     ("limit", JNum 100)] in
  match (if truthy (obj_get query "person_seniorities")
         then match split_trim (obj_get query "person_seniorities") with
              | Ret titles =>
                  Ret (obj_set peopleSearchPayload "person_titles" titles)
              | Throw e => Throw e
              end
         else Ret peopleSearchPayload) with
  | Ret peopleSearchPayload =>
      if truthy (obj_get query "contact_email_status")
      then match split_trim (obj_get query "contact_email_status") with
           | Ret statuses =>
               Ret (obj_set peopleSearchPayload "contact_email_status_v2"
                      statuses)
           | Throw e => Throw e
           end
      else Ret peopleSearchPayload
  | Throw e => Throw e
  end.

(** The [try] block of [employeesOfCompany]. *)
Definition employeesOfCompany_try (c : t) (query : obj) : M jsval :=
  let company := obj_get query "company" in
  let website_url := obj_get query "website_url" in
  let linkedin_url := obj_get query "linkedin_url" in
  guard (truthy company) (Error "Company name is required") ;;
  strippedWebsiteUrl <- stripUrl website_url ;;
  strippedLinkedinUrl <- stripUrl linkedin_url ;;
  let companySearchPayload :=
    JObj [("q_organization_name", company);
          ("page", JNum 1);
          ("limit", JNum 100)] in
  mixedCompaniesResponse <-
    axios_post "https://api.apollo.io/v1/mixed_companies/search"
      companySearchPayload (search_headers c) ;;
  guard (truthy (data mixedCompaniesResponse))
    (Error "No data received from Apollo API") ;;
  organizations <-
    lift (get_prop (data mixedCompaniesResponse) "organizations") ;;
  len <- lift (get_prop organizations "length") ;;
  guard (negb (strict_eq len (JNum 0))) (Error "No organizations found") ;;
  match organizations with
  | JArr items =>
      companyObjs <-
        filter_items (url_matches strippedLinkedinUrl strippedWebsiteUrl)
          items ;;
      let companyObj :=
        match companyObjs with
        | first :: _ => first
        | [] => match items with
                | first :: _ => first
                | [] => JUndefined
                end
        end in
      companyId <- lift (get_prop companyObj "id") ;;
      guard (truthy companyId) (Error "Could not determine company ID") ;;
      peopleSearchPayload <- lift (people_payload query companyId) ;;
      peopleResponse <-
        axios_post "https://api.apollo.io/v1/mixed_people/search"
          (JObj peopleSearchPayload) (search_headers c) ;;
      guard (truthy (data peopleResponse))
        (Error "No data received from Apollo API") ;;
      people <- lift (get_prop (data peopleResponse) "people") ;;
      ret (if truthy people then people else JArr [])
  | _ => throw (TypeError "organizations.filter is not a function")
  end.

Definition employeesOfCompany (c : t) (query : obj) : M jsval :=
  try_catch (employeesOfCompany_try c query)
    (fun error =>
       console_error [LStr ("Error finding employees: " +++ message error)] ;;
       ret JNull).

End ApolloClient.

(* ================================================================= *)
(** ** index.ts *)

Module Server.

(** [sanitizeRanges]: a falsy or non-array argument is returned as it is;
    in an array, each string that contains a hyphen has its first hyphen
    replaced by a comma. *)
Definition sanitize_range (range : jsval) : jsval :=
  match range with
  | JStr s => if Str.includes "-" s then JStr (Str.replace_first "-" "," s)
              else range
  | _ => range
  end.

Definition sanitizeRanges (ranges : jsval) : jsval :=
  if negb (truthy ranges) || negb (isArray ranges) then ranges
  else match ranges with
       | JArr items => JArr (map sanitize_range items)
       | _ => ranges
       end.

(** The operations of [this.apollo] that the handler calls. *)
Record Apollo : Type := mkApollo {
  bulkPeopleEnrichment : obj -> M jsval;
  peopleEnrichment : obj -> M jsval;
  organizationEnrichment : obj -> M jsval;
  peopleSearch : obj -> M jsval;
  organizationSearch : obj -> M jsval;
  organizationJobPostings : jsval -> M jsval;
  getPersonEmail : jsval -> M jsval;
  employeesOfCompany : obj -> M jsval }.

(** The handler's [this.apollo] is an [ApolloClient]. *)
Definition apollo_of (c : ApolloClient.t) : Apollo :=
  mkApollo
    (ApolloClient.bulkPeopleEnrichment c)
    (ApolloClient.peopleEnrichment c)
    (ApolloClient.organizationEnrichment c)
    (ApolloClient.peopleSearch c)
    (ApolloClient.organizationSearch c)
    (ApolloClient.organizationJobPostings c)
    (ApolloClient.getPersonEmail c)
    (ApolloClient.employeesOfCompany c).

Record CallToolRequest : Type := mkCall {
  name : string;
  arguments : option obj }.

Record TextContent : Type := mkText {
  type : string;
  text : option string }.

(** [isError] is [None] when the property is absent. *)
Record CallToolResult : Type := mkResult {
  content : list TextContent;
  isError : option bool }.

(** [ErrorCode.MethodNotFound] of the protocol SDK. *)
Definition MethodNotFound : Z := (-32601)%Z.

(** [new McpError(code, message)]: the SDK's constructor prefixes the
    message with the code. *)
Definition McpError (code : Z) (msg : string) : exn :=
  mkExn (McpErrorClass code)
    ("MCP error " +++ Z_to_string code +++ ": " +++ msg) None.

(** The tool names of the [switch]. *)
Definition tool_names : list string :=
  ["bulk_people_enrichment"; "people_enrichment"; "organization_enrichment";
   "people_search"; "organization_search"; "organization_job_postings";
   "get_person_email"; "employees_of_company"].

Definition ranges_key : string := "organization_num_employees_ranges".

(** The [if] statement before the [switch]: the arguments as the
    operations receive them. *)
Definition sanitize_args (name : string) (args : obj) : obj :=
  if (name =? "organization_search") && truthy (obj_get args ranges_key)
  then obj_set args ranges_key (sanitizeRanges (obj_get args ranges_key))
  else args.

(** [{ content: [{ type: "text", text: JSON.stringify(result, null, 2) }] }] *)
Definition text_result (result : jsval) : CallToolResult :=
  mkResult [mkText "text" (stringify result)] None.

(** The [switch] statement. *)
Definition dispatch (apollo : Apollo) (name : string) (args : obj)
  : M CallToolResult :=
  if name =? "bulk_people_enrichment" then
    guard (truthy (obj_get args "details") && isArray (obj_get args "details"))
      (Error "The 'details' array is required for bulk people enrichment") ;;
    result <- bulkPeopleEnrichment apollo args ;;
    ret (text_result result)
  else if name =? "people_enrichment" then
    result <- peopleEnrichment apollo args ;;
    ret (text_result result)
  else if name =? "organization_enrichment" then
    result <- organizationEnrichment apollo args ;;
    ret (text_result result)
  else if name =? "people_search" then
    result <- peopleSearch apollo args ;;
    ret (text_result result)
  else if name =? "organization_search" then
    result <- organizationSearch apollo args ;;
    ret (text_result result)
  else if name =? "organization_job_postings" then
    result <- organizationJobPostings apollo (obj_get args "organization_id") ;;
    ret (text_result result)
  else if name =? "get_person_email" then
    result <- getPersonEmail apollo (obj_get args "apollo_id") ;;
    ret (text_result result)
  else if name =? "employees_of_company" then
    result <- employeesOfCompany apollo args ;;
    ret (text_result result)
  else
    throw (McpError MethodNotFound ("Unknown tool: " +++ name)).

(** The [try] block of the call-tool handler. *)
Definition call_tool_try (apollo : Apollo) (request : CallToolRequest)
  : M CallToolResult :=
  let args := match arguments request with
              | Some a => a
              | None => []
              end in
  let args := sanitize_args (name request) args in
  dispatch apollo (name request) args.

(** The [catch] block's return value. *)
Definition error_result (error : exn) : CallToolResult :=
  mkResult [mkText "text" (Some ("Apollo.io API error: " +++ message error))]
    (Some true).

(** The handler registered for [CallToolRequestSchema]. *)
Definition call_tool (apollo : Apollo) (request : CallToolRequest)
  : M CallToolResult :=
  try_catch (call_tool_try apollo request)
    (fun error =>
       console_error
         [LStr ("Error executing tool " +++ name request +++ ":");
          LExn error] ;;
       ret (error_result error)).

End Server.

(* ================================================================= *)
(** ** Specification-side definitions *)

Module Spec.


Definition starts_with (p s : string) : bool :=
  match Str.strip_prefix p s with
  | Some _ => true
  | None => false
  end.



(** The parameter names of the sub-fields of a nested object. *)
Definition field_names (key : string) (fields : obj) : list string :=
  map (fun field => key +++ "[" +++ fst field +++ "]") fields.

(** The parameter names one entry of a filter object addresses. *)
Definition param_names (entry : string * jsval) : list string :=
  let (key, value) := entry in
  match value with
  | JUndefined | JNull => []
  | JArr _ => [key +++ "[]"]
  | JObj fields => field_names key fields
  | _ => [key]
  end.

(** What the flattening rule promises for one entry of the filter, read
    off the formatted parameters [m]: the array itself under the key with
    the array marker (nothing for an empty array), each non-null sub-field
    under its bracketed key (nothing for a null one), a scalar under its
    own key. *)
Definition formatted_as (m : obj) (entry : string * jsval) : Prop :=
  let (key, value) := entry in
  match value with
  | JUndefined | JNull => True
  | JArr items =>
      obj_lookup m (key +++ "[]") = match items with
                                    | [] => None
                                    | _ => Some (JArr items)
                                    end
  | JObj fields =>
      forall s v,
        In (s, v) fields ->
        obj_lookup m (key +++ "[" +++ s +++ "]")
        = if nullish v then None else Some v
  | _ => obj_lookup m key = Some value
  end.

(** The value [stripUrl] returns and the lines it logs. *)
Definition stripped (url : jsval) : jsval :=
  if negb (truthy url) then JUndefined
  else match url with
       | JStr s =>
           JStr (Str.toLowerCase
                   (Str.remove_trailing_slash
                      (Str.remove_www (Str.remove_protocol s))))
       | _ => url
       end.

Definition strip_log (url : jsval) : list (stream * list log_arg) :=
  if negb (truthy url) then []
  else match url with
       | JStr _ => []
       | _ => [(Stderr, [LStr "Error stripping URL:";
                         LExn (TypeError "url.replace is not a function")])]
       end.

(** The property [v.k] of a value that is neither null nor undefined. *)
Definition prop (v : jsval) (k : string) : jsval :=
  match get_prop v k with
  | Ret x => x
  | Throw _ => JUndefined
  end.

(** A candidate matches when its normalised LinkedIn URL equals the
    caller's normalised LinkedIn URL, or its normalised website URL the
    caller's normalised website URL, both being present. *)
Definition url_match (linkedin website candidate : jsval) : bool :=
  (truthy linkedin && truthy (stripped (prop candidate "linkedin_url"))
   && strict_eq (stripped (prop candidate "linkedin_url")) linkedin)
  || (truthy website && truthy (stripped (prop candidate "website_url"))
      && strict_eq (stripped (prop candidate "website_url")) website).

(** The candidate the specification selects: the first match in search
    order, else the first candidate. *)
Definition candidate (linkedin website : jsval) (candidates : list jsval)
  : option jsval :=
  match find (url_match linkedin website) candidates with
  | Some c => Some c
  | None => hd_error candidates
  end.



(** The requests of the two operations that call the legacy hosts. *)
Definition email_request (c : ApolloClient.t) (apolloId : jsval) (now : Z)
  : request :=
  mkRequest POST
    "https://app.apollo.io/api/v1/mixed_people/add_to_my_prospects"
    (Some (JObj [("entity_ids", JArr [apolloId]);
                 ("analytics_context", JStr "Searcher: Individual Add Button");
                 ("skip_fetching_people", JBool true);
                 ("cta_name", JStr "Access email");
                 ("cacheKey", JNum now)]))
    None (ApolloClient.key_headers c).

Definition company_search_request (c : ApolloClient.t) (company : jsval)
  : request :=
  mkRequest POST "https://api.apollo.io/v1/mixed_companies/search"
    (Some (JObj [("q_organization_name", company);
                 ("page", JNum 1);
                 ("limit", JNum 100)]))
    None (ApolloClient.search_headers c).

Definition people_search_request (c : ApolloClient.t) (payload : obj)
  : request :=
  mkRequest POST "https://api.apollo.io/v1/mixed_people/search"
    (Some (JObj payload)) None (ApolloClient.search_headers c).

(** The lines [employeesOfCompany] logs while normalising the caller's
    two URLs. *)
Definition caller_url_log (query : obj) : list (stream * list log_arg) :=
  strip_log (obj_get query "website_url")
  ++ strip_log (obj_get query "linkedin_url").

(** The static table of the dispatcher: the client call bound to a tool
    name, on the arguments the handler passes, and [None] for a name that
    is not registered.  The bulk tool's call comes after its validation of
    [details]. *)
Definition binding (apollo : Server.Apollo) (name : string) (args : obj)
  : option (M jsval) :=
  if name =? "bulk_people_enrichment" then
    Some (guard (truthy (obj_get args "details")
                 && isArray (obj_get args "details"))
            (Error "The 'details' array is required for bulk people enrichment") ;;
          Server.bulkPeopleEnrichment apollo args)
  else if name =? "people_enrichment" then
    Some (Server.peopleEnrichment apollo args)
  else if name =? "organization_enrichment" then
    Some (Server.organizationEnrichment apollo args)
  else if name =? "people_search" then
    Some (Server.peopleSearch apollo args)
  else if name =? "organization_search" then
    Some (Server.organizationSearch apollo args)
  else if name =? "organization_job_postings" then
    Some (Server.organizationJobPostings apollo
            (obj_get args "organization_id"))
  else if name =? "get_person_email" then
    Some (Server.getPersonEmail apollo (obj_get args "apollo_id"))
  else if name =? "employees_of_company" then
    Some (Server.employeesOfCompany apollo args)
  else None.

(** The arguments of a request as the handler's [switch] sees them. *)
Definition effective_args (request : Server.CallToolRequest) : obj :=
  Server.sanitize_args (Server.name request)
    match Server.arguments request with
    | Some a => a
    | None => []
    end.



(** No two entries of the filter, and no two sub-fields of an entry,
    address the same parameter name. *)
Definition no_clash (query : obj) : Prop :=
  NoDup (flat_map param_names query).

End Spec.

(** Fixtures for the closed instances below. *)
Module Fixtures.

Definition client : ApolloClient.t :=
  ApolloClient.mkClient "key" "https://api.apollo.io/api/v1"
    [("Content-Type", "application/json");
     ("Cache-Control", "no-cache");
     ("x-api-key", "key")].

(** A world whose network gives the same answer to every request. *)
Definition world_of (answer : request -> axios_result) : world :=
  mkWorld (fun _ => answer) 0 [] [].


Definition refused : axios_result :=
  Rejected (mkExn AxiosErrorClass "connect ECONNREFUSED" None).

Definition ok (payload : jsval) : axios_result :=
  Resolved (mkResponse 200 "OK" payload).

(** A people-search filter: an array, a scalar, a range object with one
    bound missing, and a null field. *)
Definition sample_query : obj :=
  [("person_titles", JArr [JStr "ceo"; JStr "cto"; JStr "cfo"]);
   ("page", JNum 1);
   ("revenue_range", JObj [("min", JNum 300000); ("max", JNull)]);
   ("q_keywords", JNull)].

(** A company search that finds two organisations; every other request
    is answered with one person. *)
Definition two_candidates (r : request) : axios_result :=
  if req_url r =? "https://api.apollo.io/v1/mixed_companies/search" then
    ok (JObj [("organizations",
               JArr [JObj [("id", JStr "o1");
                           ("linkedin_url",
                            JStr "http://linkedin.com/company/other")];
                     JObj [("id", JStr "o2");
                           ("linkedin_url",
                            JStr "http://www.linkedin.com/company/Acme")]])])
  else ok (JObj [("people", JArr [JObj [("name", JStr "Bob")]])]).

(** A company search that finds nothing. *)
Definition no_candidates (r : request) : axios_result :=
  ok (JObj [("organizations", JArr [])]).

Definition acme_query : obj :=
  [("company", JStr "Acme");
   ("linkedin_url", JStr "https://www.LinkedIn.com/company/acme/")].

(** A filter in which a scalar key spells the array key's parameter name. *)
Definition overwritten_query : obj :=
  [("k", JArr [JStr "a"; JStr "b"]); ("k[]", JStr "x")].

(** A filter in which an array key's parameter name is the one of a
    sub-field written before it. *)
Definition clashing_query : obj :=
  [("r", JObj [("[", JNum 1)]); ("r[", JArr [JStr "a"])].

End Fixtures.

(* ================================================================= *)
(** ** index.ts: start-up, the tool catalogue, the earlier handler *)

Module Main.

(** The top level of index.ts:
    [values["api-key"] || process.env.APOLLO_IO_API_KEY], and the fatal
    error when neither is set. *)
Definition resolve_api_key (flag env : option string) : outcome string :=
  let apiKey :=
    match flag with
    | Some s => if s =? "" then env else Some s
    | None => env
    end in
  match apiKey with
  | Some s =>
      if s =? "" then
        Throw (Error "APOLLO_IO_API_KEY environment variable is required")
      else Ret s
  | None => Throw (Error "APOLLO_IO_API_KEY environment variable is required")
  end.

(** The server's constructor up to its client:
    [this.apollo = new ApolloClient(apiKey)]. *)
Definition start (flag env : option string) : outcome ApolloClient.t :=
  match resolve_api_key flag env with
  | Ret apiKey => ApolloClient.new (Some apiKey) env
  | Throw e => Throw e
  end.

End Main.

(** The list-tools handler returns a constant catalogue. *)
Module Tools.

Record Tool : Type := mkTool {
  name : string;
  description : string;
  inputSchema : jsval }.

Definition tools : list Tool :=
  [mkTool "people_enrichment"
    "Use the People Enrichment endpoint to enrich data for 1 person"
    (JObj
     [("type", JStr "object");
      ("properties", JObj
       [("first_name", JObj
         [("type", JStr "string");
          ("description", JStr "Person's first name")]);
        ("last_name", JObj
         [("type", JStr "string");
          ("description", JStr "Person's last name")]);
        ("email", JObj
         [("type", JStr "string");
          ("description", JStr "Person's email address")]);
        ("domain", JObj
         [("type", JStr "string");
          ("description", JStr "Company domain")]);
        ("organization_name", JObj
         [("type", JStr "string");
          ("description", JStr "Organization name")]);
        ("linkedin_url", JObj
         [("type", JStr "string");
          ("description", JStr "Person's LinkedIn profile URL")])])]);
  mkTool "organization_enrichment"
    "Use the Organization Enrichment endpoint to enrich data for 1 company"
    (JObj
     [("type", JStr "object");
      ("properties", JObj
       [("domain", JObj
         [("type", JStr "string");
          ("description", JStr "Company domain")]);
        ("name", JObj
         [("type", JStr "string");
          ("description", JStr "Company name")])])]);
  mkTool "people_search"
    "Use the People Search endpoint to find people"
    (JObj
     [("type", JStr "object");
      ("properties", JObj
       [("q_organization_domains_list", JObj
         [("type", JStr "array");
          ("items", JObj
           [("type", JStr "string")]);
          ("description", JStr "The domain names for the person's employer (current or previous). Do not include www. Up to 1,000 domains per request.")]);
        ("person_titles", JObj
         [("type", JStr "array");
          ("items", JObj
           [("type", JStr "string")]);
          ("description", JStr "Job titles held by the people you want to find. Results include similar titles unless include_similar_titles is set to false.")]);
        ("include_similar_titles", JObj
         [("type", JStr "boolean");
          ("description", JStr "When false, only returns exact matches for titles specified in person_titles. Default is true.")]);
        ("person_locations", JObj
         [("type", JStr "array");
          ("items", JObj
           [("type", JStr "string")]);
          ("description", JStr "Locations where people live. Can search cities, US states, and countries.")]);
        ("person_seniorities", JObj
         [("type", JStr "array");
          ("items", JObj
           [("type", JStr "string")]);
          ("description", JStr "Job seniority levels. Options: owner, founder, c_suite, partner, vp, head, director, manager, senior, entry, intern.")]);
        ("organization_locations", JObj
         [("type", JStr "array");
          ("items", JObj
           [("type", JStr "string")]);
          ("description", JStr "Location of company headquarters for a person's current employer.")]);
        ("contact_email_status", JObj
         [("type", JStr "array");
          ("items", JObj
           [("type", JStr "string")]);
          ("description", JStr "Email statuses to search for. Options: verified, unverified, likely to engage, unavailable.")]);
        ("organization_ids", JObj
         [("type", JStr "array");
          ("items", JObj
           [("type", JStr "string")]);
          ("description", JStr "Apollo IDs for specific companies to include in search results.")]);
        ("organization_num_employees_ranges", JObj
         [("type", JStr "array");
          ("items", JObj
           [("type", JStr "string")]);
          ("description", JStr "Number ranges of employees at the person's company. Format: 'min,max' or 'min-max' (e.g., '1,10' or '1-10').")]);
        ("q_keywords", JObj
         [("type", JStr "string");
          ("description", JStr "String of words to filter results by.")]);
        ("page", JObj
         [("type", JStr "number");
          ("description", JStr "The page number of results to retrieve.")]);
        ("per_page", JObj
         [("type", JStr "number");
          ("description", JStr "Number of search results to return per page.")])])]);
  mkTool "organization_search"
    "Use the Organization Search endpoint to find organizations"
    (JObj
     [("type", JStr "object");
      ("properties", JObj
       [("q_organization_domains_list", JObj
         [("type", JStr "array");
          ("items", JObj
           [("type", JStr "string")]);
          ("description", JStr "List of organization domains to search for")]);
        ("organization_locations", JObj
         [("type", JStr "array");
          ("items", JObj
           [("type", JStr "string")]);
          ("description", JStr "List of organization locations to search for")]);
        ("organization_num_employees_ranges", JObj
         [("type", JStr "array");
          ("items", JObj
           [("type", JStr "string")]);
          ("description", JStr ("List of employee count ranges to filter by. Format: " +++ dquote +++ "min,max" +++ dquote +++ " (e.g., " +++ dquote +++ "1,10" +++ dquote +++ ", " +++ dquote +++ "11,50" +++ dquote +++ ", " +++ dquote +++ "51,200" +++ dquote +++ ", etc.) or " +++ dquote +++ "min-max" +++ dquote +++ " (e.g., " +++ dquote +++ "1-10" +++ dquote +++ ", " +++ dquote +++ "11-50" +++ dquote +++ ", " +++ dquote +++ "51-200" +++ dquote +++ ", etc.)"))]);
        ("organization_not_locations", JObj
         [("type", JStr "array");
          ("items", JObj
           [("type", JStr "string")]);
          ("description", JStr ("List of locations to exclude from search (e.g., " +++ dquote +++ "ireland" +++ dquote +++ ", " +++ dquote +++ "minnesota" +++ dquote +++ ", etc.)"))]);
        ("revenue_range", JObj
         [("type", JStr "object");
          ("properties", JObj
           [("min", JObj
             [("type", JStr "number");
              ("description", JStr "Minimum revenue (e.g., 300000)")]);
            ("max", JObj
             [("type", JStr "number");
              ("description", JStr "Maximum revenue (e.g., 50000000)")])]);
          ("description", JStr "Revenue range to filter by (do not include currency symbols or commas)")]);
        ("currently_using_any_of_technology_uids", JObj
         [("type", JStr "array");
          ("items", JObj
           [("type", JStr "string")]);
          ("description", JStr ("Technologies the company is using (e.g., " +++ dquote +++ "salesforce" +++ dquote +++ ", " +++ dquote +++ "google_analytics" +++ dquote +++ ", etc.)"))]);
        ("q_organization_keyword_tags", JObj
         [("type", JStr "array");
          ("items", JObj
           [("type", JStr "string")]);
          ("description", JStr ("Keywords associated with companies (e.g., " +++ dquote +++ "mining" +++ dquote +++ ", " +++ dquote +++ "consulting" +++ dquote +++ ", etc.)"))]);
        ("q_organization_name", JObj
         [("type", JStr "string");
          ("description", JStr ("Filter results by company name (e.g., " +++ dquote +++ "apollo" +++ dquote +++ " or " +++ dquote +++ "mining" +++ dquote +++ ")"))]);
        ("organization_ids", JObj
         [("type", JStr "array");
          ("items", JObj
           [("type", JStr "string")]);
          ("description", JStr "Specific Apollo organization IDs to include in search")]);
        ("page", JObj
         [("type", JStr "number");
          ("description", JStr "Page number for pagination")]);
        ("per_page", JObj
         [("type", JStr "number");
          ("description", JStr "Number of results per page")])])]);
  mkTool "organization_job_postings"
    "Use the Organization Job Postings endpoint to find job postings for a specific organization"
    (JObj
     [("type", JStr "object");
      ("properties", JObj
       [("organization_id", JObj
         [("type", JStr "string");
          ("description", JStr "Apollo.io organization ID")])]);
      ("required", JArr [JStr "organization_id"])]);
  mkTool "get_person_email"
    "Get email address for a person using their Apollo ID"
    (JObj
     [("type", JStr "object");
      ("properties", JObj
       [("apollo_id", JObj
         [("type", JStr "string");
          ("description", JStr "Apollo.io person ID")])]);
      ("required", JArr [JStr "apollo_id"])]);
  mkTool "employees_of_company"
    "Find employees of a company using company name or website/LinkedIn URL"
    (JObj
     [("type", JStr "object");
      ("properties", JObj
       [("company", JObj
         [("type", JStr "string");
          ("description", JStr "Company name")]);
        ("website_url", JObj
         [("type", JStr "string");
          ("description", JStr "Company website URL")]);
        ("linkedin_url", JObj
         [("type", JStr "string");
          ("description", JStr "Company LinkedIn URL")]);
        ("person_seniorities", JObj
         [("type", JStr "string");
          ("description", JStr "Comma-separated list of seniority levels to filter by")])]);
      ("required", JArr [JStr "company"])]);
  mkTool "bulk_people_enrichment"
    "Use the Bulk People Enrichment endpoint to enrich data for up to 10 people with a single API call"
    (JObj
     [("type", JStr "object");
      ("properties", JObj
       [("details", JObj
         [("type", JStr "array");
          ("items", JObj
           [("type", JStr "object");
            ("properties", JObj
             [("first_name", JObj
               [("type", JStr "string");
                ("description", JStr "Person's first name")]);
              ("last_name", JObj
               [("type", JStr "string");
                ("description", JStr "Person's last name")]);
              ("email", JObj
               [("type", JStr "string");
                ("description", JStr "Person's email address")]);
              ("domain", JObj
               [("type", JStr "string");
                ("description", JStr "Company domain")]);
              ("organization_name", JObj
               [("type", JStr "string");
                ("description", JStr "Organization name")]);
              ("linkedin_url", JObj
               [("type", JStr "string");
                ("description", JStr "Person's LinkedIn profile URL")])])]);
          ("description", JStr "Array of people to enrich (max 10)")]);
        ("reveal_personal_emails", JObj
         [("type", JStr "boolean");
          ("description", JStr "Set to true to enrich with personal emails (may consume credits). Default is false.")]);
        ("reveal_phone_number", JObj
         [("type", JStr "boolean");
          ("description", JStr "Set to true to enrich with phone numbers (may consume credits). Requires webhook_url. Default is false.")]);
        ("webhook_url", JObj
         [("type", JStr "string");
          ("description", JStr "Webhook URL where Apollo will send phone number data (required if reveal_phone_number is true)")])]);
      ("required", JArr [JStr "details"])])].

(** The schema registered under a tool name. *)
Definition schema_of (tool : string) : option jsval :=
  option_map inputSchema (find (fun t => name t =? tool) tools).

End Tools.

(** The call-tool handler of the earlier index.ts, which has no bulk
    tool; [sanitizeRanges] and the [catch] block are the same. *)
Module Legacy.

Import Server.

Definition dispatch (apollo : Apollo) (name : string) (args : obj)
  : M CallToolResult :=
  if name =? "people_enrichment" then
    result <- peopleEnrichment apollo args ;;
    ret (text_result result)
  else if name =? "organization_enrichment" then
    result <- organizationEnrichment apollo args ;;
    ret (text_result result)
  else if name =? "people_search" then
    result <- peopleSearch apollo args ;;
    ret (text_result result)
  else if name =? "organization_search" then
    result <- organizationSearch apollo args ;;
    ret (text_result result)
  else if name =? "organization_job_postings" then
    result <- organizationJobPostings apollo (obj_get args "organization_id") ;;
    ret (text_result result)
  else if name =? "get_person_email" then
    result <- getPersonEmail apollo (obj_get args "apollo_id") ;;
    ret (text_result result)
  else if name =? "employees_of_company" then
    result <- employeesOfCompany apollo args ;;
    ret (text_result result)
  else
    throw (McpError MethodNotFound ("Unknown tool: " +++ name)).

Definition call_tool_try (apollo : Apollo) (request : CallToolRequest)
  : M CallToolResult :=
  let args := match arguments request with
              | Some a => a
              | None => []
              end in
  let args := sanitize_args (name request) args in
  dispatch apollo (name request) args.

Definition call_tool (apollo : Apollo) (request : CallToolRequest)
  : M CallToolResult :=
  try_catch (call_tool_try apollo request)
    (fun error =>
       console_error
         [LStr ("Error executing tool " +++ name request +++ ":");
          LExn error] ;;
       ret (error_result error)).

End Legacy.

(* ================================================================= *)
(** ** Observations on runs *)

Module Obs.

(** In every world the computation sends at most [n] requests, appended
    to the ones sent before, and each of them satisfies [P]. *)
Definition sends {A} (P : request -> Prop) (n : nat) (m : M A) : Prop :=
  forall w : world,
    exists reqs : list request,
      sent (snd (m w)) = sent w ++ reqs
      /\ List.length reqs <= n
      /\ Forall P reqs.

(** The request carries the client's API key in the key header, under
    either spelling the code uses. *)
Definition carries_key (c : ApolloClient.t) (r : request) : Prop :=
  In ("x-api-key", ApolloClient.apiKey c) (req_headers r)
  \/ In ("X-Api-Key", ApolloClient.apiKey c) (req_headers r).

(** The request goes to one of the two upstream hosts over https. *)
Definition apollo_host (r : request) : bool :=
  Spec.starts_with "https://api.apollo.io/" (req_url r)
  || Spec.starts_with "https://app.apollo.io/" (req_url r).

Definition authenticated (c : ApolloClient.t) (r : request) : Prop :=
  carries_key c r /\ apollo_host r = true.

(** The keys of an object. *)
Definition keys (o : obj) : list string := map fst o.

(** An operation passes the payload through on request [req]: whenever
    the call resolves with status 200 it returns [response.data] as it
    came, having recorded the request after whatever [pre] it logs up
    front, and logs nothing more. *)
Definition passes_through (op : M jsval) (pre : world -> world)
    (req : request) : Prop :=
  forall (w : world) (r : response),
    upstream w (sent w) req = Resolved r ->
    status r = 200%Z ->
    op w = (Ret (data r), record_request req (pre w)).



(** The world in which [employeesOfCompany] issues its people search:
    the organisation search is recorded, and only console lines were
    added besides. *)
Definition after_company_search (c : ApolloClient.t) (q : obj) (w w' : world)
  : Prop :=
  upstream w' = upstream w
  /\ sent w'
     = sent w ++ [Spec.company_search_request c (obj_get q "company")].


End Obs.

(** Conformance of an argument object to a catalogue schema, for the
    flat schemas of the search tools: scalars, arrays of scalars, and
    objects of scalars one level deep. *)
Module Schema.

Definition type_of (schema : jsval) : string :=
  match Spec.prop schema "type" with
  | JStr t => t
  | _ => ""
  end.

Definition properties (schema : jsval) : obj :=
  match Spec.prop schema "properties" with
  | JObj ps => ps
  | _ => []
  end.

Definition scalar_ok (t : string) (v : jsval) : bool :=
  match v with
  | JStr _ => t =? "string"
  | JNum _ => t =? "number"
  | JBool _ => t =? "boolean"
  | _ => false
  end.

Fixpoint distinct (l : list string) : bool :=
  match l with
  | [] => true
  | x :: l' => negb (existsb (String.eqb x) l') && distinct l'
  end.

(** Every field is declared and holds a scalar of the declared type. *)
Definition fields_ok (declared fields : obj) : bool :=
  forallb (fun field =>
             match obj_lookup declared (fst field) with
             | Some s => scalar_ok (type_of s) (snd field)
             | None => false
             end) fields.

Definition value_ok (schema v : jsval) : bool :=
  match v with
  | JArr items =>
      (type_of schema =? "array")
      && forallb (scalar_ok (type_of (Spec.prop schema "items"))) items
  | JObj fields =>
      (type_of schema =? "object")
      && distinct (map fst fields)
      && fields_ok (properties schema) fields
  | _ => scalar_ok (type_of schema) v
  end.

Definition conforms (schema : jsval) (args : obj) : bool :=
  distinct (map fst args)
  && forallb (fun entry =>
                match obj_lookup (properties schema) (fst entry) with
                | Some s => value_ok s (snd entry)
                | None => false
                end) args.

(** The parameter names a declared property can be formatted to. *)
Definition names_for (declared : string * jsval) : list string :=
  let (key, schema) := declared in
  if type_of schema =? "array" then [key +++ "[]"]
  else if type_of schema =? "object" then
    Spec.field_names key (properties schema)
  else [key].

Definition all_names (schema : jsval) : list string :=
  flat_map names_for (properties schema).

(** The argument names a schema lists as required. *)
Definition required (schema : jsval) : list string :=
  match Spec.prop schema "required" with
  | JArr names =>
      flat_map (fun n => match n with
                         | JStr s => [s]
                         | _ => []
                         end) names
  | _ => []
  end.

End Schema.

(** Sample payloads and worlds for the closed instances of the further
    properties. *)
Module Samples.

Definition contacts_response : response :=
  mkResponse 201 "Created"
    (JObj [("contacts",
            JArr [JObj [("email", JStr "a@x.io"); ("name", JStr "A")];
                  JObj [("name", JStr "B")]])]).

Definition contacts_world : world :=
  Fixtures.world_of (fun _ => Resolved contacts_response).

Definition candidates : list jsval :=
  [JObj [("id", JStr "o1");
         ("linkedin_url", JStr "http://linkedin.com/company/other")];
   JObj [("id", JStr "o2");
         ("linkedin_url", JStr "http://www.linkedin.com/company/Acme")]].

Definition candidates_response : response :=
  mkResponse 200 "OK" (JObj [("organizations", JArr candidates)]).

Definition people_response : response :=
  mkResponse 200 "OK" (JObj [("people", JArr [JObj [("name", JStr "Bob")]])]).

(** A company search whose only organisation has no identifier. *)
Definition anonymous_response : response :=
  mkResponse 200 "OK"
    (JObj [("organizations", JArr [JObj [("name", JStr "Acme")]])]).

End Samples.

(* ================================================================= *)
(** ** Properties *)

(** *** The embedding at work *)

Example stringify_values :
  stringify JNull = Some "null"
  /\ stringify JUndefined = None
  /\ stringify (JArr [JNum 1; JUndefined]) = stringify (JArr [JNum 1; JNull])
  /\ stringify (JObj [("a", JUndefined)]) = Some "{}".
Proof. repeat split. Qed.

Example formatQueryParams_sample :
  ApolloClient.formatQueryParams Fixtures.sample_query
  = Ret [("person_titles[]", JArr [JStr "ceo"; JStr "cto"; JStr "cfo"]);
         ("page", JNum 1);
         ("revenue_range[min]", JNum 300000)].
Proof. reflexivity. Qed.

Example split_trim_sample :
  ApolloClient.split_trim (JStr "senior, vp ,c_suite")
  = Ret (JArr [JStr "senior"; JStr "vp"; JStr "c_suite"]).
Proof. reflexivity. Qed.

Example new_requires_key :
  ApolloClient.new None (Some "")
  = Throw (Error "APOLLO_IO_API_KEY environment variable is required")
  /\ ApolloClient.new (Some "key") None = Ret Fixtures.client.
Proof. split; reflexivity. Qed.

(** An [organization_search] call reaches the network with its ranges in
    comma form and under the array-marker key. *)
Example organization_search_request :
  map req_params
    (sent (snd (Server.call_tool (Server.apollo_of Fixtures.client)
                  (Server.mkCall "organization_search"
                     (Some [(Server.ranges_key,
                             JArr [JStr "11-50"; JStr "51,200"])]))
                  (Fixtures.world_of (fun _ => Fixtures.refused)))))
  = [Some [("organization_num_employees_ranges[]",
            JArr [JStr "11,50"; JStr "51,200"])]].
Proof. reflexivity. Qed.

(** *** Objects *)

Lemma obj_lookup_set_same (o : obj) (k : string) (v : jsval) :
  obj_lookup (obj_set o k v) k = Some v.
Proof.
  induction o as [|[k' v'] o IH]; simpl.
  - now rewrite String.eqb_refl.
  - destruct (k' =? k) eqn:E; simpl; rewrite E; auto.
Qed.

Lemma obj_lookup_set_other (o : obj) (k k' : string) (v : jsval) :
  k <> k' -> obj_lookup (obj_set o k v) k' = obj_lookup o k'.
Proof.
  intros Hne. induction o as [|[k0 v0] o IH]; simpl.
  - apply String.eqb_neq in Hne. now rewrite Hne.
  - destruct (k0 =? k) eqn:E; simpl.
    + apply String.eqb_eq in E. subst k0.
      apply String.eqb_neq in Hne. now rewrite Hne.
    + destruct (k0 =? k'); auto.
Qed.



(** *** URL normalisation *)

Section UrlNormalisation.

Import Str Spec.




Lemma starts_with_false (p s : string) :
  starts_with p s = false -> strip_prefix p s = None.
Proof. unfold starts_with. now destruct (strip_prefix p s). Qed.



End UrlNormalisation.




(** *** Range normalisation *)

Section RangeNormalisation.

Import Str Server.






End RangeNormalisation.



(** *** Query-parameter formatting *)

Section QueryParams.

Import ApolloClient Spec.

Lemma NoDup_app_disjoint {A} (l1 l2 : list A) (a : A) :
  NoDup (l1 ++ l2) -> In a l1 -> ~ In a l2.
Proof.
  induction l1 as [|x l1 IH]; simpl; [tauto|].
  intros Hnd [->|Hin] Hin2.
  - inversion Hnd as [|? ? Hx _]. apply Hx, in_or_app. now right.
  - inversion Hnd. now apply IH.
Qed.

Lemma push_param_frame (pk : string) (fp fp' : obj) (item : jsval) :
  push_param pk fp item = Ret fp' ->
  forall p, p <> pk -> obj_lookup fp' p = obj_lookup fp p.
Proof.
  unfold push_param. intros H p Hp.
  destruct (negb (truthy (obj_get fp pk)));
    match type of H with
    | match ?x with _ => _ end = _ => destruct x; try discriminate
    end;
    injection H as <-;
    repeat (rewrite obj_lookup_set_other by congruence); reflexivity.
Qed.

Lemma push_all_frame (pk : string) (items : list jsval) :
  forall fp fp',
    push_all pk fp items = Ret fp' ->
    forall p, p <> pk -> obj_lookup fp' p = obj_lookup fp p.
Proof.
  induction items as [|item rest IH]; simpl; intros fp fp' H p Hp.
  - now injection H as <-.
  - destruct (push_param pk fp item) as [fp1|] eqn:E; [|discriminate].
    rewrite (IH _ _ H p Hp). exact (push_param_frame _ _ _ _ E p Hp).
Qed.

(** Pushing onto an array that is already there appends in order. *)
Lemma push_all_array (pk : string) (items : list jsval) :
  forall fp l,
    obj_lookup fp pk = Some (JArr l) ->
    exists fp', push_all pk fp items = Ret fp'
                /\ obj_lookup fp' pk = Some (JArr (l ++ items)).
Proof.
  induction items as [|item rest IH]; simpl; intros fp l Hl.
  - exists fp. now rewrite app_nil_r.
  - unfold push_param, obj_get. rewrite Hl. cbn [truthy negb]. rewrite Hl.
    destruct (IH (obj_set fp pk (JArr (l ++ [item]))) (l ++ [item]))
      as [fp' [Hrun Hres]]; [apply obj_lookup_set_same|].
    exists fp'. split; [exact Hrun|].
    now rewrite Hres, <- app_assoc.
Qed.

(** Pushing under a name that is not there yet creates the array, unless
    there is nothing to push. *)
Lemma push_all_fresh (pk : string) (items : list jsval) (fp : obj) :
  obj_lookup fp pk = None ->
  exists fp', push_all pk fp items = Ret fp'
              /\ obj_lookup fp' pk = match items with
                                     | [] => None
                                     | _ => Some (JArr items)
                                     end.
Proof.
  intro Hnone. destruct items as [|item rest]; simpl.
  - now exists fp.
  - unfold push_param, obj_get. rewrite Hnone. cbn [truthy negb].
    rewrite obj_lookup_set_same.
    destruct (push_all_array pk rest
                (obj_set (obj_set fp pk (JArr [])) pk (JArr ([] ++ [item])))
                [item]) as [fp' [Hrun Hres]]; [apply obj_lookup_set_same|].
    exists fp'. split; [exact Hrun|exact Hres].
Qed.

Lemma set_subfields_frame (key : string) (fields : obj) :
  forall fp p,
    ~ In p (field_names key fields) ->
    obj_lookup (set_subfields key fp fields) p = obj_lookup fp p.
Proof.
  induction fields as [|[s v] rest IH]; simpl; intros fp p Hp; [reflexivity|].
  rewrite IH by tauto.
  destruct (negb (nullish v)); [|reflexivity].
  apply obj_lookup_set_other. intro E. apply Hp. now left.
Qed.

Lemma set_subfields_values (key : string) (fields : obj) :
  forall fp,
    NoDup (field_names key fields) ->
    (forall p, In p (field_names key fields) -> obj_lookup fp p = None) ->
    forall s v,
      In (s, v) fields ->
      obj_lookup (set_subfields key fp fields) (key +++ "[" +++ s +++ "]")
      = if nullish v then None else Some v.
Proof.
  induction fields as [|[s0 v0] rest IH]; simpl; intros fp Hnd Hfree s v Hin;
    [contradiction|].
  inversion Hnd as [|? ? Hfresh Hnd']; subst.
  destruct Hin as [E|Hin].
  - injection E as -> ->.
    rewrite set_subfields_frame by exact Hfresh.
    destruct (nullish v); simpl.
    + apply Hfree. now left.
    + apply obj_lookup_set_same.
  - apply IH; [exact Hnd'| |exact Hin].
    intros p Hp.
    assert (Hne : key +++ "[" +++ s0 +++ "]" <> p)
      by (intro E; subst p; exact (Hfresh Hp)).
    destruct (negb (nullish v0)).
    + rewrite obj_lookup_set_other by exact Hne. apply Hfree. now right.
    + apply Hfree. now right.
Qed.

End QueryParams.

Section Flattening.

Import ApolloClient Spec.

(** [formatted_as] reads the parameters only at the entry's own names. *)
Lemma formatted_as_ext (m m' : obj) (entry : string * jsval) :
  (forall p, In p (param_names entry) -> obj_lookup m p = obj_lookup m' p) ->
  formatted_as m' entry -> formatted_as m entry.
Proof.
  destruct entry as [key value]. unfold formatted_as, param_names.
  intros Hext H.
  destruct value; try exact I;
    try (rewrite Hext by (now left); exact H).
  intros s v Hin. rewrite Hext; [now apply H|].
  unfold field_names. apply in_map_iff. now exists (s, v).
Qed.

Lemma format_entry_frame (fp fp' : obj) (entry : string * jsval) :
  format_entry fp entry = Ret fp' ->
  forall p, ~ In p (param_names entry) -> obj_lookup fp' p = obj_lookup fp p.
Proof.
  destruct entry as [key value]. unfold format_entry, param_names.
  intros H p Hp.
  destruct value; cbn [nullish] in H;
    try (injection H as <-);
    try reflexivity;
    try (apply obj_lookup_set_other; intro E; apply Hp; now left).
  - apply (push_all_frame _ _ _ _ H). intro E. apply Hp. now left.
  - now apply set_subfields_frame.
Qed.

(** One iteration of the loop, on an entry whose names are still free. *)
Lemma format_entry_fresh (fp : obj) (entry : string * jsval) :
  NoDup (param_names entry) ->
  (forall p, In p (param_names entry) -> obj_lookup fp p = None) ->
  exists fp', format_entry fp entry = Ret fp' /\ formatted_as fp' entry.
Proof.
  destruct entry as [key value]. unfold format_entry, param_names, formatted_as.
  intros Hnd Hfree.
  destruct value; cbn [nullish];
    try (eexists; split; [reflexivity|]; try exact I;
         apply obj_lookup_set_same).
  - apply push_all_fresh. apply Hfree. now left.
  - eexists; split; [reflexivity|].
    intros s v Hin. now apply set_subfields_values.
Qed.

(** The whole loop, on a filter without clashes whose names are free in
    the parameters accumulated so far. *)
Lemma format_entries_fresh (query : obj) :
  forall fp,
    NoDup (flat_map param_names query) ->
    (forall p, In p (flat_map param_names query) -> obj_lookup fp p = None) ->
    exists m,
      format_entries fp query = Ret m
      /\ (forall p, ~ In p (flat_map param_names query) ->
                    obj_lookup m p = obj_lookup fp p)
      /\ (forall entry, In entry query -> formatted_as m entry).
Proof.
  induction query as [|entry rest IH]; intros fp Hnd Hfree.
  - exists fp. simpl. repeat split; tauto.
  - cbn [flat_map] in Hnd, Hfree.
    destruct (format_entry_fresh fp entry) as [fp1 [Hstep Hentry]].
    { exact (NoDup_app_remove_r _ _ Hnd). }
    { intros p Hp. apply Hfree, in_or_app. now left. }
    destruct (IH fp1) as [m [Hrun [Hframe Hrest]]].
    { exact (NoDup_app_remove_l _ _ Hnd). }
    { intros p Hp.
      rewrite (format_entry_frame _ _ _ Hstep).
      - apply Hfree, in_or_app. now right.
      - intro Hin. exact (NoDup_app_disjoint _ _ _ Hnd Hin Hp). }
    exists m. cbn [format_entries flat_map]. rewrite Hstep.
    split; [exact Hrun|]. split.
    + intros p Hp. rewrite Hframe.
      * apply (format_entry_frame _ _ _ Hstep).
        intro Hin. apply Hp, in_or_app. now left.
      * intro Hin. apply Hp, in_or_app. now right.
    + intros e [<-|Hin]; [|now apply Hrest].
      apply formatted_as_ext with (m' := fp1); [|exact Hentry].
      intros p Hp. apply Hframe.
      exact (NoDup_app_disjoint _ _ _ Hnd Hp).
Qed.

Lemma formatQueryParams_no_clash (query : obj) :
  no_clash query ->
  exists m,
    formatQueryParams query = Ret m
    /\ (forall entry, In entry query -> formatted_as m entry).
Proof.
  intro Hnd. destruct (format_entries_fresh query [] Hnd) as [m [H [_ Hall]]].
  - reflexivity.
  - now exists m.
Qed.

(** A null or undefined entry is skipped by the loop. *)
Lemma format_entries_skip_nullish (q1 q2 : obj) (k : string) (v : jsval) :
  nullish v = true ->
  forall fp,
    format_entries fp (q1 ++ (k, v) :: q2) = format_entries fp (q1 ++ q2).
Proof.
  intro Hv. induction q1 as [|entry q1 IH]; intro fp; simpl.
  - now rewrite Hv.
  - destruct (format_entry fp entry); [apply IH|reflexivity].
Qed.

End Flattening.

(** C5 (as amended).  When no two entries of the filter object address
    the same parameter name, the formatter returns, and every key bound to
    an array of n elements has those n elements, in their order, under the
    key suffixed with the array marker (and nothing under it when n is
    zero). *)
Theorem formatQueryParams_array_entries (query : obj) :
  Spec.no_clash query ->
  exists m,
    ApolloClient.formatQueryParams query = Ret m
    /\ forall (k : string) (items : list jsval),
        In (k, JArr items) query ->
        obj_lookup m (k +++ "[]") = match items with
                                    | [] => None
                                    | _ => Some (JArr items)
                                    end.
Proof.
  intro Hnd.
  destruct (formatQueryParams_no_clash query Hnd) as [m [Hrun Hall]].
  exists m. split; [exact Hrun|].
  intros k items Hin. exact (Hall _ Hin).
Qed.

Lemma sample_query_no_clash : Spec.no_clash Fixtures.sample_query.
Proof.
  unfold Spec.no_clash. simpl.
  repeat constructor; simpl; intuition discriminate.
Defined.

Lemma formatQueryParams_array_entries_witness :
  exists m,
    ApolloClient.formatQueryParams Fixtures.sample_query = Ret m
    /\ forall (k : string) (items : list jsval),
        In (k, JArr items) Fixtures.sample_query ->
        obj_lookup m (k +++ "[]") = match items with
                                    | [] => None
                                    | _ => Some (JArr items)
                                    end.
Proof.
  exact (formatQueryParams_array_entries Fixtures.sample_query
           sample_query_no_clash).
Defined.

(** C5 (as stated) fails: a scalar key that spells the array's parameter
    name replaces the array written before it. *)
Lemma formatQueryParams_array_overwritten :
  ~ (forall (query : obj) (k : string) (items : list jsval),
        In (k, JArr items) query ->
        exists m,
          ApolloClient.formatQueryParams query = Ret m
          /\ obj_lookup m (k +++ "[]") = match items with
                                         | [] => None
                                         | _ => Some (JArr items)
                                         end).
Proof.
  intro H.
  destruct (H Fixtures.overwritten_query "k" [JStr "a"; JStr "b"])
    as [m [Hrun Hres]]; [now left|].
  vm_compute in Hrun. injection Hrun as <-.
  vm_compute in Hres. discriminate Hres.
Qed.

(** C6 (as amended).  An entry whose value is null or undefined changes
    nothing: the formatter gives the same result as on the filter without
    it.  When no two entries address the same parameter name, the
    formatter returns, and every sub-field of a nested object is found
    under the bracketed key with its value when it is not null, while a
    null or undefined sub-field leaves that key absent. *)
Theorem formatQueryParams_null_and_nested :
  (forall (q1 q2 : obj) (k : string) (v : jsval),
      nullish v = true ->
      ApolloClient.formatQueryParams (q1 ++ (k, v) :: q2)
      = ApolloClient.formatQueryParams (q1 ++ q2))
  /\ (forall query : obj,
         Spec.no_clash query ->
         exists m,
           ApolloClient.formatQueryParams query = Ret m
           /\ forall (k : string) (fields : obj),
               In (k, JObj fields) query ->
               forall (s : string) (v : jsval),
                 In (s, v) fields ->
                 obj_lookup m (k +++ "[" +++ s +++ "]")
                 = if nullish v then None else Some v).
Proof.
  split.
  - intros q1 q2 k v Hv. now apply format_entries_skip_nullish.
  - intros query Hnd.
    destruct (formatQueryParams_no_clash query Hnd) as [m [Hrun Hall]].
    exists m. split; [exact Hrun|].
    intros k fields Hin. exact (Hall _ Hin).
Qed.

Lemma formatQueryParams_null_and_nested_witness :
  (ApolloClient.formatQueryParams
     ([("page", JNum 1)] ++ ("q_keywords", JNull) :: [])
   = ApolloClient.formatQueryParams ([("page", JNum 1)] ++ []))
  /\ exists m,
      ApolloClient.formatQueryParams Fixtures.sample_query = Ret m
      /\ forall (k : string) (fields : obj),
          In (k, JObj fields) Fixtures.sample_query ->
          forall (s : string) (v : jsval),
            In (s, v) fields ->
            obj_lookup m (k +++ "[" +++ s +++ "]")
            = if nullish v then None else Some v.
Proof.
  split.
  - apply (proj1 formatQueryParams_null_and_nested). reflexivity.
  - apply (proj2 formatQueryParams_null_and_nested).
    exact sample_query_no_clash.
Defined.

(** C6 (as stated) fails: when a later array key addresses the name of a
    sub-field, the push onto the sub-field's value throws and the
    formatter emits nothing. *)
Lemma formatQueryParams_nested_clash :
  ~ (forall (query : obj) (k : string) (fields : obj) (s : string)
            (v : jsval),
        In (k, JObj fields) query ->
        In (s, v) fields ->
        nullish v = false ->
        exists m,
          ApolloClient.formatQueryParams query = Ret m
          /\ obj_lookup m (k +++ "[" +++ s +++ "]") = Some v).
Proof.
  intro H.
  destruct (H Fixtures.clashing_query "r" [("[", JNum 1)] "[" (JNum 1))
    as [m [Hrun _]]; [now left|now left|reflexivity|].
  vm_compute in Hrun. discriminate Hrun.
Qed.

(** *** Effects *)

Lemma append_console_nil (w : world) : append_console [] w = w.
Proof. destruct w. unfold append_console. simpl. now rewrite app_nil_r. Qed.

Lemma append_console_app (l1 l2 : list (stream * list log_arg)) (w : world) :
  append_console l2 (append_console l1 w) = append_console (l1 ++ l2) w.
Proof. unfold append_console. simpl. now rewrite app_assoc. Qed.

Lemma stripUrl_run (url : jsval) (w : world) :
  ApolloClient.stripUrl url w
  = (Ret (Spec.stripped url), append_console (Spec.strip_log url) w).
Proof.
  unfold ApolloClient.stripUrl, Spec.stripped, Spec.strip_log.
  destruct (truthy url) eqn:E; cbn [negb].
  - destruct url; try reflexivity.
    unfold try_catch, ret. now rewrite append_console_nil.
  - unfold ret. now rewrite append_console_nil.
Qed.

(** *** Failures inside the client *)

Section ClientFailures.

Import ApolloClient Spec.










Lemma getPersonEmail_missing_id (c : t) (apolloId : jsval) (w : world) :
  truthy apolloId = false ->
  getPersonEmail c apolloId w
  = (Ret JNull,
     emit Stderr [LStr "Error getting person email: Apollo ID is required"] w).
Proof.
  intro Hf. unfold getPersonEmail, try_catch, bind, guard. now rewrite Hf.
Qed.

Lemma employeesOfCompany_missing_company (c : t) (q : obj) (w : world) :
  truthy (obj_get q "company") = false ->
  employeesOfCompany c q w
  = (Ret JNull,
     emit Stderr [LStr "Error finding employees: Company name is required"] w).
Proof.
  intro Hf.
  unfold employeesOfCompany, try_catch, employeesOfCompany_try, bind, guard.
  now rewrite Hf.
Qed.

End ClientFailures.




(** *** The dispatcher *)

Section Dispatcher.

Import Server Spec.


Lemma binding_registered (apollo : Apollo) (name : string) (args : obj) :
  In name tool_names -> exists op, binding apollo name args = Some op.
Proof.
  unfold tool_names. simpl.
  intros [<-|[<-|[<-|[<-|[<-|[<-|[<-|[<-|[]]]]]]]]]; eexists; reflexivity.
Qed.

Lemma binding_unregistered (apollo : Apollo) (name : string) (args : obj) :
  ~ In name tool_names -> binding apollo name args = None.
Proof.
  intro Hn. unfold binding.
  repeat match goal with
         | |- context [String.eqb name ?s] =>
             let E := fresh "E" in
             destruct (String.eqb name s) eqn:E;
             [apply String.eqb_eq in E; exfalso; apply Hn; subst name;
              unfold tool_names; simpl; tauto|]
         end.
  reflexivity.
Qed.

(** The [switch] implements the table. *)
Lemma dispatch_binding (apollo : Apollo) (name : string) (args : obj)
    (w : world) :
  dispatch apollo name args w
  = match binding apollo name args with
    | Some op => (result <- op ;; ret (text_result result)) w
    | None => (Throw (McpError MethodNotFound ("Unknown tool: " +++ name)), w)
    end.
Proof.
  unfold dispatch, binding.
  repeat match goal with
         | |- context [String.eqb name ?s] => destruct (String.eqb name s)
         end; try reflexivity.
  unfold bind, guard.
  destruct (truthy (obj_get args "details") && isArray (obj_get args "details"));
    reflexivity.
Qed.

(** The handler, in terms of the table: an operation's value is wrapped as
    text, an exception becomes the error-flagged result. *)
Lemma call_tool_binding (apollo : Apollo) (request : CallToolRequest)
    (w : world) :
  call_tool apollo request w
  = match binding apollo (name request) (effective_args request) with
    | Some op =>
        match op w with
        | (Ret result, w') => (Ret (text_result result), w')
        | (Throw e, w') =>
            (Ret (error_result e),
             emit Stderr [LStr ("Error executing tool " +++ name request
                                +++ ":"); LExn e] w')
        end
    | None =>
        (Ret (error_result
                (McpError MethodNotFound ("Unknown tool: " +++ name request))),
         emit Stderr
           [LStr ("Error executing tool " +++ name request +++ ":");
            LExn (McpError MethodNotFound
                    ("Unknown tool: " +++ name request))] w)
    end.
Proof.
  unfold call_tool, try_catch, call_tool_try.
  fold (effective_args request). rewrite dispatch_binding.
  destruct (binding apollo (name request) (effective_args request)) as [op|];
    [|reflexivity].
  unfold bind. destruct (op w) as [[result|e] w']; reflexivity.
Qed.

End Dispatcher.

(** C2 (what the code does at an unregistered name).  The [default] branch
    throws the protocol's method-not-found error, but inside the handler's
    own [try]: the [catch] turns it into an error-flagged text response, so
    the handler returns and nothing is thrown to the host runtime. *)
Theorem unknown_tool_is_caught (apollo : Server.Apollo)
    (request : Server.CallToolRequest) (w : world) :
  ~ In (Server.name request) Server.tool_names ->
  Server.call_tool_try apollo request w
  = (Throw (Server.McpError Server.MethodNotFound
              ("Unknown tool: " +++ Server.name request)), w)
  /\ Server.call_tool apollo request w
     = (Ret (Server.mkResult
               [Server.mkText "text"
                  (Some ("Apollo.io API error: MCP error -32601: Unknown tool: "
                         +++ Server.name request))]
               (Some true)),
        emit Stderr
          [LStr ("Error executing tool " +++ Server.name request +++ ":");
           LExn (Server.McpError Server.MethodNotFound
                   ("Unknown tool: " +++ Server.name request))] w).
Proof.
  intro Hn. split.
  - unfold Server.call_tool_try. fold (Spec.effective_args request).
    rewrite dispatch_binding. now rewrite binding_unregistered.
  - rewrite call_tool_binding. now rewrite binding_unregistered.
Qed.

Lemma unknown_tool_is_caught_witness :
  fst (Server.call_tool (Server.apollo_of Fixtures.client)
         (Server.mkCall "nonexistent_tool" None)
         (Fixtures.world_of (fun _ => Fixtures.refused)))
  = Ret (Server.mkResult
           [Server.mkText "text"
              (Some "Apollo.io API error: MCP error -32601: Unknown tool: nonexistent_tool")]
           (Some true)).
Proof.
  rewrite (proj2 (unknown_tool_is_caught (Server.apollo_of Fixtures.client)
                    (Server.mkCall "nonexistent_tool" None)
                    (Fixtures.world_of (fun _ => Fixtures.refused))
                    ltac:(simpl; intuition discriminate))).
  reflexivity.
Defined.

(** The bulk tool's validation: without a [details] array the call is
    answered with the flagged text and nothing is sent. *)
Lemma bulk_without_details (apollo : Server.Apollo) (args : obj) (w : world) :
  isArray (obj_get args "details") = false ->
  Server.call_tool apollo
    (Server.mkCall "bulk_people_enrichment" (Some args)) w
  = (Ret (Server.mkResult
            [Server.mkText "text"
               (Some "Apollo.io API error: The 'details' array is required for bulk people enrichment")]
            (Some true)),
     emit Stderr
       [LStr "Error executing tool bulk_people_enrichment:";
        LExn (Error "The 'details' array is required for bulk people enrichment")]
       w).
Proof.
  intro H. rewrite call_tool_binding.
  unfold Spec.effective_args, Server.sanitize_args, Spec.binding.
  cbn [Server.name Server.arguments String.eqb Ascii.eqb Bool.eqb andb].
  unfold bind, guard. rewrite H, andb_false_r. reflexivity.
Qed.

(** C3.  On a registered tool the handler always returns a result.  When
    the bound call, the bulk tool's argument validation included, throws
    an exception, the result is flagged as an error and its text is
    [Apollo.io API error: ] followed by the exception's message; the
    exception of the bulk tool's validation is answered that way. *)
Theorem call_tool_catches (apollo : Server.Apollo)
    (request : Server.CallToolRequest) (w : world) :
  In (Server.name request) Server.tool_names ->
  (exists result w', Server.call_tool apollo request w = (Ret result, w'))
  /\ (exists op,
         Spec.binding apollo (Server.name request)
           (Spec.effective_args request)
         = Some op
         /\ forall (e : exn) (w' : world),
             op w = (Throw e, w') ->
             Server.call_tool apollo request w
             = (Ret (Server.mkResult
                       [Server.mkText "text"
                          (Some ("Apollo.io API error: " +++ message e))]
                       (Some true)),
                emit Stderr
                  [LStr ("Error executing tool " +++ Server.name request
                         +++ ":");
                   LExn e] w'))
  /\ (forall args : obj,
         isArray (obj_get args "details") = false ->
         Server.call_tool apollo
           (Server.mkCall "bulk_people_enrichment" (Some args)) w
         = (Ret (Server.mkResult
                   [Server.mkText "text"
                      (Some "Apollo.io API error: The 'details' array is required for bulk people enrichment")]
                   (Some true)),
            emit Stderr
              [LStr "Error executing tool bulk_people_enrichment:";
               LExn (Error "The 'details' array is required for bulk people enrichment")]
              w)).
Proof.
  intro Hin.
  destruct (binding_registered apollo (Server.name request)
              (Spec.effective_args request) Hin) as [op Hop].
  split; [|split].
  - rewrite call_tool_binding, Hop.
    destruct (op w) as [[result|e] w']; eauto.
  - exists op. split; [exact Hop|].
    intros e w' Hthrow. now rewrite call_tool_binding, Hop, Hthrow.
  - intros args H. now apply bulk_without_details.
Qed.

Lemma call_tool_catches_witness :
  exists result w',
    Server.call_tool (Server.apollo_of Fixtures.client)
      (Server.mkCall "bulk_people_enrichment" (Some [("details", JNum 3)]))
      (Fixtures.world_of (fun _ => Fixtures.refused))
    = (Ret result, w').
Proof.
  apply (call_tool_catches (Server.apollo_of Fixtures.client)
           (Server.mkCall "bulk_people_enrichment" (Some [("details", JNum 3)]))
           (Fixtures.world_of (fun _ => Fixtures.refused))).
  simpl. tauto.
Defined.

(** *** Null results *)

Section NullResults.

Import ApolloClient Spec.




End NullResults.



(** *** Employees of a company *)

Section Employees.

Import ApolloClient Spec.

Lemma get_prop_prop (v : jsval) (k : string) :
  nullish v = false -> get_prop v k = Ret (prop v k).
Proof. unfold prop. destruct v; simpl; try discriminate; reflexivity. Qed.


Lemma url_matches_run (sL sW item : jsval) (w : world) :
  nullish item = false ->
  url_matches sL sW item w
  = (Ret (url_match sL sW item),
     append_console (strip_log (prop item "linkedin_url")
                     ++ strip_log (prop item "website_url")) w).
Proof.
  intro Hn. unfold url_matches, bind, lift.
  rewrite !(get_prop_prop _ _ Hn), !stripUrl_run, append_console_app.
  unfold url_match.
  destruct (truthy sL && truthy (stripped (prop item "linkedin_url"))
            && strict_eq (stripped (prop item "linkedin_url")) sL);
    [reflexivity|].
  destruct (truthy sW && truthy (stripped (prop item "website_url"))
            && strict_eq (stripped (prop item "website_url")) sW);
    reflexivity.
Qed.

Lemma filter_items_run (sL sW : jsval) (items : list jsval) :
  (forall item, In item items -> nullish item = false) ->
  forall w, exists logs,
    filter_items (url_matches sL sW) items w
    = (Ret (filter (url_match sL sW) items), append_console logs w).
Proof.
  induction items as [|item rest IH]; intros Hn w.
  - exists []. simpl. unfold ret. now rewrite append_console_nil.
  - cbn [filter_items]. unfold bind at 1.
    rewrite url_matches_run by (apply Hn; now left).
    unfold bind at 1.
    destruct (IH (fun x Hx => Hn x (or_intror Hx))
                (append_console (strip_log (prop item "linkedin_url")
                     ++ strip_log (prop item "website_url")) w)) as [logs Hrun].
    rewrite Hrun, append_console_app.
    eexists. unfold ret. simpl. reflexivity.
Qed.

Lemma find_filter {A} (f : A -> bool) (l : list A) :
  find f l = hd_error (filter f l).
Proof.
  induction l as [|x l IH]; simpl; [reflexivity|].
  now destruct (f x).
Qed.

Lemma candidate_code (sL sW : jsval) (items : list jsval) (chosen : jsval) :
  candidate sL sW items = Some chosen ->
  match filter (url_match sL sW) items with
  | first :: _ => first
  | [] => match items with
          | first :: _ => first
          | [] => JUndefined
          end
  end = chosen.
Proof.
  unfold candidate. rewrite find_filter.
  destruct (filter (url_match sL sW) items); simpl.
  - destruct items; simpl; congruence.
  - congruence.
Qed.


Lemma employees_no_orgs (c : t) (q : obj) (w : world) (r : response) :
  truthy (obj_get q "company") = true ->
  upstream w (sent w) (company_search_request c (obj_get q "company"))
  = Resolved r ->
  prop (data r) "organizations" = JArr [] ->
  employeesOfCompany_try c q w
  = (Throw (Error "No organizations found"),
     record_request (company_search_request c (obj_get q "company"))
       (append_console (caller_url_log q) w)).
Proof.
  intros Ht Hup Horgs. unfold company_search_request in Hup.
  unfold employeesOfCompany_try, bind, guard.
  rewrite Ht. unfold ret. rewrite !stripUrl_run, append_console_app.
  unfold axios_post, axios_send. cbn [upstream sent append_console].
  rewrite Hup.
  assert (Hd : nullish (data r) = false).
  { destruct (data r); simpl in *; try discriminate; reflexivity. }
  assert (Htd : truthy (data r) = true).
  { destruct (data r); simpl in *; try discriminate; reflexivity. }
  rewrite Htd. unfold lift. rewrite (get_prop_prop _ _ Hd), Horgs.
  reflexivity.
Qed.




End Employees.

(** C9.  When the organisation search answers with an empty list of
    organisations, the operation fails: its [try] block raises the error
    [No organizations found], which the operation logs before returning
    its failure value [null]; the only request sent is the organisation
    search, so no people search is issued. *)
Theorem employeesOfCompany_no_organizations (c : ApolloClient.t) (q : obj)
    (w : world) (r : response) :
  truthy (obj_get q "company") = true ->
  upstream w (sent w) (Spec.company_search_request c (obj_get q "company"))
  = Resolved r ->
  Spec.prop (data r) "organizations" = JArr [] ->
  fst (ApolloClient.employeesOfCompany_try c q w)
  = Throw (Error "No organizations found")
  /\ ApolloClient.employeesOfCompany c q w
     = (Ret JNull,
        emit Stderr
          [LStr "Error finding employees: No organizations found"]
          (record_request
             (Spec.company_search_request c (obj_get q "company"))
             (append_console (Spec.caller_url_log q) w)))
  /\ sent (snd (ApolloClient.employeesOfCompany c q w))
     = sent w ++ [Spec.company_search_request c (obj_get q "company")].
Proof.
  intros Ht Hup Horgs.
  pose proof (employees_no_orgs c q w r Ht Hup Horgs) as Htry.
  assert (Hrun : ApolloClient.employeesOfCompany c q w
                 = (Ret JNull,
                    emit Stderr
                      [LStr "Error finding employees: No organizations found"]
                      (record_request
                         (Spec.company_search_request c (obj_get q "company"))
                         (append_console (Spec.caller_url_log q) w)))).
  { unfold ApolloClient.employeesOfCompany, try_catch. now rewrite Htry. }
  split; [now rewrite Htry|]. split; [exact Hrun|].
  now rewrite Hrun.
Qed.

Lemma employeesOfCompany_no_organizations_witness :
  sent (snd (ApolloClient.employeesOfCompany Fixtures.client
               Fixtures.acme_query
               (Fixtures.world_of Fixtures.no_candidates)))
  = [Spec.company_search_request Fixtures.client (JStr "Acme")].
Proof.
  apply (employeesOfCompany_no_organizations Fixtures.client
           Fixtures.acme_query (Fixtures.world_of Fixtures.no_candidates)
           (mkResponse 200 "OK" (JObj [("organizations", JArr [])])));
    reflexivity.
Defined.



(* ================================================================= *)
(** ** Further properties of the client *)

Section ClientSuccess.

Import ApolloClient Spec Obs.

(** After the operation is unfolded down to the axios call: a resolved
    200 ends in the payload. *)
Ltac settle_ok Hup Hst :=
  rewrite Hup; unfold on_response, ret;
  apply Z.eqb_eq in Hst; rewrite Hst; reflexivity.

(** X1.  Each of the six status-checking operations, when its call
    resolves with status 200, returns the response payload unchanged,
    records exactly that one request, and writes nothing to the error
    console. *)
Theorem status_200_passes_payload (c : t) :
  (forall q : obj,
      passes_through (peopleEnrichment c q)
        (fun w =>
           emit Stdout [LStr "query"; LVal (JObj q)]
             (emit Stdout
                [LStr "url"; LVal (JStr (baseUrl c +++ "/people/match"))] w))
        (mkRequest POST (baseUrl c +++ "/people/match") (Some (JObj q)) None
           (headers c)))
  /\ (forall q : obj,
         passes_through (bulkPeopleEnrichment c q) (fun w => w)
           (mkRequest POST (baseUrl c +++ "/people/bulk_match")
              (Some (JObj q)) None (headers c)))
  /\ (forall q : obj,
         passes_through (organizationEnrichment c q) (fun w => w)
           (mkRequest GET (baseUrl c +++ "/organizations/enrich") None
              (Some q) (headers c)))
  /\ (forall q formattedParams : obj,
         formatQueryParams q = Ret formattedParams ->
         passes_through (peopleSearch c q) (fun w => w)
           (mkRequest POST (baseUrl c +++ "/mixed_people/search")
              (Some (JObj [])) (Some formattedParams) (headers c)))
  /\ (forall q formattedParams : obj,
         formatQueryParams q = Ret formattedParams ->
         passes_through (organizationSearch c q) (fun w => w)
           (mkRequest POST (baseUrl c +++ "/mixed_companies/search")
              (Some (JObj [])) (Some formattedParams) (headers c)))
  /\ (forall organizationId : jsval,
         passes_through (organizationJobPostings c organizationId)
           (fun w => w)
           (mkRequest GET
              (baseUrl c +++ "/organizations/" +++ to_string organizationId
               +++ "/job_postings")
              None None (headers c))).
Proof.
  repeat split; intros; intros w r Hup Hst.
  - unfold peopleEnrichment, try_catch, bind, console_log, instance_post,
      axios_send.
    cbn [upstream sent emit]. settle_ok Hup Hst.
  - unfold bulkPeopleEnrichment, try_catch, bind, instance_post, axios_send.
    settle_ok Hup Hst.
  - unfold organizationEnrichment, try_catch, bind, instance_get, axios_send.
    settle_ok Hup Hst.
  - unfold peopleSearch, try_catch, bind, lift, instance_post, axios_send.
    rewrite H. settle_ok Hup Hst.
  - unfold organizationSearch, try_catch, bind, lift, instance_post,
      axios_send.
    rewrite H. settle_ok Hup Hst.
  - unfold organizationJobPostings, try_catch, bind, instance_get, axios_send.
    settle_ok Hup Hst.
Qed.

Lemma status_200_passes_payload_witness :
  bulkPeopleEnrichment Fixtures.client [("details", JArr [])]
    (Fixtures.world_of (fun _ => Fixtures.ok (JObj [("matches", JArr [])])))
  = (Ret (JObj [("matches", JArr [])]),
     record_request
       (mkRequest POST "https://api.apollo.io/api/v1/people/bulk_match"
          (Some (JObj [("details", JArr [])])) None
          (headers Fixtures.client))
       (Fixtures.world_of
          (fun _ => Fixtures.ok (JObj [("matches", JArr [])])))).
Proof.
  exact (proj1 (proj2 (status_200_passes_payload Fixtures.client))
           [("details", JArr [])]
           (Fixtures.world_of
              (fun _ => Fixtures.ok (JObj [("matches", JArr [])])))
           (mkResponse 200 "OK" (JObj [("matches", JArr [])]))
           eq_refl eq_refl).
Defined.

Lemma map_email_values (items : list jsval) :
  (forall item, In item items -> nullish item = false) ->
  map_email items = Ret (map (fun item => prop item "email") items).
Proof.
  induction items as [|item rest IH]; intro Hn; [reflexivity|].
  cbn [map_email map].
  rewrite (get_prop_prop item "email") by (apply Hn; now left).
  rewrite IH by (intros x Hx; apply Hn; now right). reflexivity.
Qed.

Lemma map_email_null_item (items : list jsval) (item : jsval) :
  In item items -> nullish item = true ->
  exists e, map_email items = Throw e.
Proof.
  induction items as [|x rest IH]; intros Hin Hnull; [contradiction|].
  cbn [map_email].
  destruct (get_prop x "email") as [email|e] eqn:E; [|now exists e].
  destruct Hin as [->|Hin].
  - destruct item; simpl in *; discriminate.
  - destruct (IH Hin Hnull) as [e He]. rewrite He. now exists e.
Qed.

(** The world and value of [getPersonEmail] once its call resolved with
    a truthy payload. *)
Lemma getPersonEmail_resolved (c : t) (apolloId : jsval) (w : world)
    (r : response) :
  truthy apolloId = true ->
  upstream w (sent w) (email_request c apolloId (clock w)) = Resolved r ->
  truthy (data r) = true ->
  getPersonEmail c apolloId w
  = match (if nullish (prop (data r) "contacts") then JArr []
           else prop (data r) "contacts") with
    | JArr items =>
        match map_email items with
        | Ret emails =>
            (Ret (JArr emails),
             record_request (email_request c apolloId (clock w)) w)
        | Throw e =>
            (Ret JNull,
             emit Stderr [LStr ("Error getting person email: " +++ message e)]
               (record_request (email_request c apolloId (clock w)) w))
        end
    | _ =>
        (Ret JNull,
         emit Stderr
           [LStr ("Error getting person email: "
                  +++ "(intermediate value).map is not a function")]
           (record_request (email_request c apolloId (clock w)) w))
    end.
Proof.
  intros Ht Hup Hd. unfold email_request in Hup.
  assert (Hn : nullish (data r) = false)
    by (destruct (data r); simpl in *; try discriminate; reflexivity).
  unfold getPersonEmail, try_catch, bind, guard. rewrite Ht.
  unfold ret, date_now, axios_post, axios_send. rewrite Hup, Hd.
  unfold lift. rewrite (get_prop_prop _ _ Hn).
  destruct (if nullish (prop (data r) "contacts") then JArr []
            else prop (data r) "contacts"); try reflexivity.
  destruct (map_email items); reflexivity.
Qed.

(** X2.  Once the email-lookup call resolves (whatever its status) with
    a truthy payload, the operation returns the [email] of each contact,
    in order, and nothing else of the payload; a payload without
    contacts gives the empty list. *)
Theorem getPersonEmail_returns_emails (c : t) (apolloId : jsval) (w : world)
    (r : response) :
  truthy apolloId = true ->
  upstream w (sent w) (email_request c apolloId (clock w)) = Resolved r ->
  truthy (data r) = true ->
  (forall items : list jsval,
      prop (data r) "contacts" = JArr items ->
      (forall item, In item items -> nullish item = false) ->
      getPersonEmail c apolloId w
      = (Ret (JArr (map (fun item => prop item "email") items)),
         record_request (email_request c apolloId (clock w)) w))
  /\ (nullish (prop (data r) "contacts") = true ->
      getPersonEmail c apolloId w
      = (Ret (JArr []),
         record_request (email_request c apolloId (clock w)) w)).
Proof.
  intros Ht Hup Hd. rewrite (getPersonEmail_resolved c apolloId w r Ht Hup Hd).
  split.
  - intros items Hc Hitems. rewrite Hc. cbn [nullish].
    now rewrite map_email_values.
  - intros Hn. now rewrite Hn.
Qed.

Lemma getPersonEmail_returns_emails_witness :
  getPersonEmail Fixtures.client (JStr "p1") Samples.contacts_world
  = (Ret (JArr [JStr "a@x.io"; JUndefined]),
     record_request (email_request Fixtures.client (JStr "p1") 0)
       Samples.contacts_world).
Proof.
  refine (proj1 (getPersonEmail_returns_emails Fixtures.client (JStr "p1")
                   Samples.contacts_world Samples.contacts_response
                   eq_refl eq_refl eq_refl)
            [JObj [("email", JStr "a@x.io"); ("name", JStr "A")];
             JObj [("name", JStr "B")]]
            eq_refl _).
  simpl. intros item [<-|[<-|[]]]; reflexivity.
Defined.

(** X3.  A resolved email-lookup call whose payload is unusable makes the
    operation return [null] after its one request: a falsy payload is
    reported as [No data received from Apollo API]; contacts that are not
    an array, or that hold a null item, fail likewise. *)
Theorem getPersonEmail_bad_payload (c : t) (apolloId : jsval) (w : world)
    (r : response) :
  truthy apolloId = true ->
  upstream w (sent w) (email_request c apolloId (clock w)) = Resolved r ->
  (truthy (data r) = false ->
   getPersonEmail c apolloId w
   = (Ret JNull,
      emit Stderr
        [LStr "Error getting person email: No data received from Apollo API"]
        (record_request (email_request c apolloId (clock w)) w)))
  /\ (truthy (data r) = true ->
      nullish (prop (data r) "contacts") = false ->
      isArray (prop (data r) "contacts") = false ->
      fst (getPersonEmail c apolloId w) = Ret JNull
      /\ sent (snd (getPersonEmail c apolloId w))
         = sent w ++ [email_request c apolloId (clock w)])
  /\ (truthy (data r) = true ->
      forall (items : list jsval) (item : jsval),
        prop (data r) "contacts" = JArr items ->
        In item items ->
        nullish item = true ->
        fst (getPersonEmail c apolloId w) = Ret JNull
        /\ sent (snd (getPersonEmail c apolloId w))
           = sent w ++ [email_request c apolloId (clock w)]).
Proof.
  intros Ht Hup. split; [|split].
  - intro Hd. unfold email_request in Hup.
    unfold getPersonEmail, try_catch, bind, guard. rewrite Ht.
    unfold ret, date_now, axios_post, axios_send. now rewrite Hup, Hd.
  - intros Hd Hn Ha.
    rewrite (getPersonEmail_resolved c apolloId w r Ht Hup Hd), Hn.
    destruct (prop (data r) "contacts"); try discriminate; now split.
  - intros Hd items item Hc Hin Hnull.
    rewrite (getPersonEmail_resolved c apolloId w r Ht Hup Hd), Hc.
    cbn [nullish].
    destruct (map_email_null_item items item Hin Hnull) as [e He].
    rewrite He. now split.
Qed.

Lemma getPersonEmail_bad_payload_witness :
  getPersonEmail Fixtures.client (JStr "p1")
    (Fixtures.world_of (fun _ => Fixtures.ok (JStr "")))
  = (Ret JNull,
     emit Stderr
       [LStr "Error getting person email: No data received from Apollo API"]
       (record_request (email_request Fixtures.client (JStr "p1") 0)
          (Fixtures.world_of (fun _ => Fixtures.ok (JStr ""))))).
Proof.
  exact (proj1 (getPersonEmail_bad_payload Fixtures.client (JStr "p1")
                  (Fixtures.world_of (fun _ => Fixtures.ok (JStr "")))
                  (mkResponse 200 "OK" (JStr "")) eq_refl eq_refl)
           eq_refl).
Defined.

Lemma candidate_in (sL sW : jsval) (items : list jsval) (chosen : jsval) :
  candidate sL sW items = Some chosen -> In chosen items.
Proof.
  unfold candidate.
  destruct (find (url_match sL sW) items) as [x|] eqn:E.
  - intro H. injection H as <-. exact (proj1 (find_some _ _ E)).
  - destruct items; simpl; [discriminate|].
    intro H. injection H as <-. now left.
Qed.

(** The run of [employeesOfCompany] up to the selected candidate. *)
Lemma employees_reaches_selection (c : t) (q : obj) (w : world)
    (r : response) (items : list jsval) (chosen : jsval) :
  truthy (obj_get q "company") = true ->
  upstream w (sent w) (company_search_request c (obj_get q "company"))
  = Resolved r ->
  prop (data r) "organizations" = JArr items ->
  (forall item, In item items -> nullish item = false) ->
  candidate (stripped (obj_get q "linkedin_url"))
    (stripped (obj_get q "website_url")) items = Some chosen ->
  exists w2,
    after_company_search c q w w2
    /\ employeesOfCompany_try c q w
       = (guard (truthy (prop chosen "id"))
            (Error "Could not determine company ID") ;;
          peopleSearchPayload <-
            lift (people_payload q (prop chosen "id")) ;;
          peopleResponse <-
            axios_post "https://api.apollo.io/v1/mixed_people/search"
              (JObj peopleSearchPayload) (search_headers c) ;;
          guard (truthy (data peopleResponse))
            (Error "No data received from Apollo API") ;;
          people <- lift (get_prop (data peopleResponse) "people") ;;
          ret (if truthy people then people else JArr [])) w2.
Proof.
  intros Ht Hup Horgs Hitems Hcand.
  unfold company_search_request in Hup.
  unfold employeesOfCompany_try, bind, guard.
  rewrite Ht. unfold ret. rewrite !stripUrl_run, append_console_app.
  unfold axios_post, axios_send. cbn [upstream sent append_console].
  rewrite Hup.
  assert (Hd : nullish (data r) = false).
  { destruct (data r); simpl in *; try discriminate; reflexivity. }
  assert (Htd : truthy (data r) = true).
  { destruct (data r); simpl in *; try discriminate; reflexivity. }
  rewrite Htd. unfold lift. rewrite (get_prop_prop _ _ Hd), Horgs.
  assert (Hlen : strict_eq (JNum (Z.of_nat (List.length items))) (JNum 0)
                 = false).
  { destruct items; [discriminate Hcand|]. reflexivity. }
  cbn [get_prop String.eqb Ascii.eqb Bool.eqb]. rewrite Hlen. cbn [negb].
  match goal with
  | |- context [filter_items ?f items ?w0] =>
      destruct (filter_items_run (stripped (obj_get q "linkedin_url"))
                  (stripped (obj_get q "website_url")) items Hitems w0)
        as [logs Hrun]; rewrite Hrun;
      exists (append_console logs w0)
  end.
  split; [split; reflexivity|].
  rewrite (candidate_code _ _ _ _ Hcand).
  rewrite (get_prop_prop chosen "id")
    by (apply Hitems; exact (candidate_in _ _ _ _ Hcand)).
  reflexivity.
Qed.

(** X4.  When both searches resolve, the operation returns the [people]
    of the second payload, and the empty list when that field is missing
    or falsy; the status of either response is never looked at. *)
Theorem employeesOfCompany_returns_people (c : t) (q : obj) (w : world)
    (r r2 : response) (items : list jsval) (chosen : jsval) (payload : obj) :
  truthy (obj_get q "company") = true ->
  upstream w (sent w) (company_search_request c (obj_get q "company"))
  = Resolved r ->
  prop (data r) "organizations" = JArr items ->
  (forall item, In item items -> nullish item = false) ->
  candidate (stripped (obj_get q "linkedin_url"))
    (stripped (obj_get q "website_url")) items = Some chosen ->
  truthy (prop chosen "id") = true ->
  people_payload q (prop chosen "id") = Ret payload ->
  upstream w
    (sent w ++ [company_search_request c (obj_get q "company")])
    (people_search_request c payload)
  = Resolved r2 ->
  truthy (data r2) = true ->
  fst (employeesOfCompany c q w)
  = Ret (if truthy (prop (data r2) "people") then prop (data r2) "people"
         else JArr []).
Proof.
  intros Ht Hup Horgs Hitems Hcand Hid Hpay Hup2 Hd2.
  destruct (employees_reaches_selection c q w r items chosen
              Ht Hup Horgs Hitems Hcand) as [w2 [[Hu Hs] Htry]].
  unfold employeesOfCompany, try_catch. rewrite Htry.
  unfold bind, guard. rewrite Hid. unfold ret, lift. rewrite Hpay.
  unfold axios_post, axios_send. rewrite Hu, Hs.
  unfold people_search_request in Hup2. rewrite Hup2, Hd2.
  rewrite (get_prop_prop (data r2) "people")
    by (destruct (data r2); simpl in *; try discriminate; reflexivity).
  reflexivity.
Qed.

Lemma employeesOfCompany_returns_people_witness :
  fst (employeesOfCompany Fixtures.client Fixtures.acme_query
         (Fixtures.world_of Fixtures.two_candidates))
  = Ret (JArr [JObj [("name", JStr "Bob")]]).
Proof.
  refine (employeesOfCompany_returns_people Fixtures.client
            Fixtures.acme_query (Fixtures.world_of Fixtures.two_candidates)
            Samples.candidates_response Samples.people_response
            Samples.candidates
            (JObj [("id", JStr "o2");
                   ("linkedin_url",
                    JStr "http://www.linkedin.com/company/Acme")])
            [("organization_ids", JArr [JStr "o2"]);
             ("page", JNum 1); ("limit", JNum 100)]
            eq_refl eq_refl eq_refl _ eq_refl eq_refl eq_refl eq_refl
            eq_refl).
  simpl. intros item [<-|[<-|[]]]; reflexivity.
Defined.

(** X5.  After the organisation search, a selected candidate without an
    identifier, or an optional filter that cannot be split, makes the
    operation log the error and return [null] with the organisation
    search as its only request: no people search is sent. *)
Theorem employeesOfCompany_stops_before_people_search (c : t) (q : obj)
    (w : world) (r : response) (items : list jsval) (chosen : jsval) :
  truthy (obj_get q "company") = true ->
  upstream w (sent w) (company_search_request c (obj_get q "company"))
  = Resolved r ->
  prop (data r) "organizations" = JArr items ->
  (forall item, In item items -> nullish item = false) ->
  candidate (stripped (obj_get q "linkedin_url"))
    (stripped (obj_get q "website_url")) items = Some chosen ->
  (truthy (prop chosen "id") = false ->
   exists w2,
     after_company_search c q w w2
     /\ employeesOfCompany c q w
        = (Ret JNull,
           emit Stderr
             [LStr "Error finding employees: Could not determine company ID"]
             w2))
  /\ (truthy (prop chosen "id") = true ->
      forall e : exn,
        people_payload q (prop chosen "id") = Throw e ->
        exists w2,
          after_company_search c q w w2
          /\ employeesOfCompany c q w
             = (Ret JNull,
                emit Stderr
                  [LStr ("Error finding employees: " +++ message e)] w2)).
Proof.
  intros Ht Hup Horgs Hitems Hcand.
  destruct (employees_reaches_selection c q w r items chosen
              Ht Hup Horgs Hitems Hcand) as [w2 [Hafter Htry]].
  split.
  - intro Hid. exists w2. split; [exact Hafter|].
    unfold employeesOfCompany, try_catch. rewrite Htry.
    unfold bind, guard. now rewrite Hid.
  - intros Hid e Hpay. exists w2. split; [exact Hafter|].
    unfold employeesOfCompany, try_catch. rewrite Htry.
    unfold bind, guard. rewrite Hid. unfold ret, lift. now rewrite Hpay.
Qed.

Lemma employeesOfCompany_stops_before_people_search_witness :
  exists w2,
    after_company_search Fixtures.client Fixtures.acme_query
      (Fixtures.world_of (fun _ => Resolved Samples.anonymous_response)) w2
    /\ employeesOfCompany Fixtures.client Fixtures.acme_query
         (Fixtures.world_of (fun _ => Resolved Samples.anonymous_response))
       = (Ret JNull,
          emit Stderr
            [LStr "Error finding employees: Could not determine company ID"]
            w2).
Proof.
  refine (proj1 (employeesOfCompany_stops_before_people_search
                   Fixtures.client Fixtures.acme_query
                   (Fixtures.world_of
                      (fun _ => Resolved Samples.anonymous_response))
                   Samples.anonymous_response
                   [JObj [("name", JStr "Acme")]]
                   (JObj [("name", JStr "Acme")])
                   eq_refl eq_refl eq_refl _ eq_refl) eq_refl).
  simpl. intros item [<-|[]]. reflexivity.
Defined.

(** X6.  A resolved organisation search whose payload is falsy, or has
    no [organizations] field, makes the operation return [null] with the
    organisation search as its only request. *)
Theorem employeesOfCompany_bad_search_payload (c : t) (q : obj) (w : world)
    (r : response) :
  truthy (obj_get q "company") = true ->
  upstream w (sent w) (company_search_request c (obj_get q "company"))
  = Resolved r ->
  (truthy (data r) = false
   \/ (truthy (data r) = true
       /\ nullish (prop (data r) "organizations") = true)) ->
  fst (employeesOfCompany c q w) = Ret JNull
  /\ sent (snd (employeesOfCompany c q w))
     = sent w ++ [company_search_request c (obj_get q "company")].
Proof.
  intros Ht Hup Hbad. unfold company_search_request in Hup.
  unfold employeesOfCompany, try_catch, employeesOfCompany_try, bind, guard.
  rewrite Ht. unfold ret. rewrite !stripUrl_run, append_console_app.
  unfold axios_post, axios_send. cbn [upstream sent append_console].
  rewrite Hup.
  destruct Hbad as [Hd|[Hd Hn]]; rewrite Hd; [now split|].
  unfold lift.
  rewrite (get_prop_prop (data r) "organizations")
    by (destruct (data r); simpl in *; try discriminate; reflexivity).
  destruct (prop (data r) "organizations"); try discriminate; now split.
Qed.

Lemma employeesOfCompany_bad_search_payload_witness :
  fst (employeesOfCompany Fixtures.client Fixtures.acme_query
         (Fixtures.world_of (fun _ => Fixtures.ok (JObj []))))
  = Ret JNull
  /\ sent (snd (employeesOfCompany Fixtures.client Fixtures.acme_query
                  (Fixtures.world_of (fun _ => Fixtures.ok (JObj [])))))
     = sent (Fixtures.world_of (fun _ => Fixtures.ok (JObj [])))
       ++ [company_search_request Fixtures.client (JStr "Acme")].
Proof.
  refine (employeesOfCompany_bad_search_payload Fixtures.client
            Fixtures.acme_query
            (Fixtures.world_of (fun _ => Fixtures.ok (JObj [])))
            (mkResponse 200 "OK" (JObj [])) eq_refl eq_refl _).
  right. split; reflexivity.
Defined.





End ClientSuccess.

(* ================================================================= *)
(** ** Further properties of the formatter *)

Section FormatterMore.

Import ApolloClient Spec Obs.

Lemma in_keys_set (o : obj) (k x : string) (v : jsval) :
  In x (keys (obj_set o k v)) -> x = k \/ In x (keys o).
Proof.
  unfold keys. induction o as [|[k' v'] o IH]; simpl.
  - intros [<-|[]]. now left.
  - destruct (k' =? k); simpl; intros [<-|H]; auto.
    destruct (IH H); auto.
Qed.

Lemma keys_set_distinct (o : obj) (k : string) (v : jsval) :
  NoDup (keys o) -> NoDup (keys (obj_set o k v)).
Proof.
  unfold keys. induction o as [|[k' v'] o IH]; simpl; intro Hnd.
  - repeat constructor. tauto.
  - inversion Hnd as [|? ? Hfresh Hnd']; subst.
    destruct (k' =? k) eqn:E; simpl; [now constructor|].
    constructor; [|now apply IH].
    intro Hin. apply in_keys_set in Hin as [->|Hin]; [|contradiction].
    now rewrite String.eqb_refl in E.
Qed.

Lemma obj_lookup_none_keys (o : obj) (k : string) :
  obj_lookup o k = None <-> ~ In k (keys o).
Proof.
  unfold keys. induction o as [|[k' v'] o IH]; simpl; [tauto|].
  destruct (k' =? k) eqn:E.
  - apply String.eqb_eq in E. split; [discriminate|]. intro H. elim H. now left.
  - apply String.eqb_neq in E. rewrite IH. tauto.
Qed.


Lemma push_param_distinct (pk : string) (fp fp' : obj) (item : jsval) :
  push_param pk fp item = Ret fp' -> NoDup (keys fp) -> NoDup (keys fp').
Proof.
  unfold push_param. intros H Hnd.
  destruct (negb (truthy (obj_get fp pk)));
    match type of H with
    | match ?x with _ => _ end = _ => destruct x; try discriminate
    end;
    injection H as <-; repeat apply keys_set_distinct; exact Hnd.
Qed.

Lemma push_all_distinct (pk : string) (items : list jsval) :
  forall fp fp',
    push_all pk fp items = Ret fp' -> NoDup (keys fp) -> NoDup (keys fp').
Proof.
  induction items as [|item rest IH]; simpl; intros fp fp' H Hnd.
  - now injection H as <-.
  - destruct (push_param pk fp item) as [fp1|] eqn:E; [|discriminate].
    exact (IH _ _ H (push_param_distinct _ _ _ _ E Hnd)).
Qed.

Lemma set_subfields_distinct (key : string) (fields : obj) :
  forall fp, NoDup (keys fp) -> NoDup (keys (set_subfields key fp fields)).
Proof.
  induction fields as [|[s v] rest IH]; simpl; intros fp Hnd; [exact Hnd|].
  apply IH. destruct (negb (nullish v)); [now apply keys_set_distinct|exact Hnd].
Qed.

Lemma format_entry_distinct (fp fp' : obj) (entry : string * jsval) :
  format_entry fp entry = Ret fp' -> NoDup (keys fp) -> NoDup (keys fp').
Proof.
  destruct entry as [key value]. unfold format_entry. intros H Hnd.
  destruct value; cbn [nullish] in H;
    try (injection H as <-);
    try exact Hnd;
    try (now apply keys_set_distinct).
  - exact (push_all_distinct _ _ _ _ H Hnd).
  - now apply set_subfields_distinct.
Qed.

Lemma format_entries_distinct (query : obj) :
  forall fp fp',
    format_entries fp query = Ret fp' -> NoDup (keys fp) -> NoDup (keys fp').
Proof.
  induction query as [|entry rest IH]; simpl; intros fp fp' H Hnd.
  - now injection H as <-.
  - destruct (format_entry fp entry) as [fp1|] eqn:E; [|discriminate].
    exact (IH _ _ H (format_entry_distinct _ _ _ E Hnd)).
Qed.

Lemma format_entries_frame (query : obj) :
  forall fp fp',
    format_entries fp query = Ret fp' ->
    forall p, ~ In p (flat_map param_names query) ->
              obj_lookup fp' p = obj_lookup fp p.
Proof.
  induction query as [|entry rest IH]; simpl; intros fp fp' H p Hp.
  - now injection H as <-.
  - destruct (format_entry fp entry) as [fp1|] eqn:E; [|discriminate].
    rewrite (IH _ _ H p) by (intro Hin; apply Hp, in_or_app; now right).
    apply (format_entry_frame _ _ _ E).
    intro Hin. apply Hp, in_or_app. now left.
Qed.

(** X8.  Whatever the filter, the parameters the formatter returns form
    a well-formed object (no key twice), and every key in them is a
    parameter name addressed by some entry of the filter: nothing else is
    ever emitted. *)
Theorem formatQueryParams_emits_only_addressed (query m : obj) :
  formatQueryParams query = Ret m ->
  NoDup (keys m)
  /\ forall p, In p (keys m) -> In p (flat_map param_names query).
Proof.
  intro H. split.
  - apply (format_entries_distinct query [] m H). constructor.
  - intros p Hp.
    destruct (in_dec string_dec p (flat_map param_names query)) as [Hin|Hn];
      [exact Hin|].
    pose proof (format_entries_frame query [] m H p Hn) as Hl.
    simpl in Hl. apply obj_lookup_none_keys in Hl. contradiction.
Qed.

Lemma formatQueryParams_emits_only_addressed_witness :
  NoDup (keys [("k[]", JStr "x")])
  /\ forall p, In p (keys [("k[]", JStr "x")]) ->
               In p (flat_map param_names Fixtures.overwritten_query).
Proof.
  exact (formatQueryParams_emits_only_addressed Fixtures.overwritten_query
           [("k[]", JStr "x")] eq_refl).
Defined.



Lemma push_all_throws (pk : string) (items : list jsval) :
  forall fp e,
    push_all pk fp items = Throw e ->
    e = TypeError "formattedParams[paramKey].push is not a function"
    /\ items <> [].
Proof.
  induction items as [|item rest IH]; simpl; intros fp e H; [discriminate|].
  split; [|discriminate].
  destruct (push_param pk fp item) as [fp1|e1] eqn:E.
  - exact (proj1 (IH _ _ H)).
  - injection H as <-. unfold push_param in E.
    destruct (negb (truthy (obj_get fp pk)));
      match type of E with
      | match ?x with _ => _ end = _ => destruct x; try discriminate
      end; now injection E as <-.
Qed.

Lemma format_entries_throws (query : obj) :
  forall fp e,
    format_entries fp query = Throw e ->
    e = TypeError "formattedParams[paramKey].push is not a function"
    /\ exists k items, In (k, JArr items) query /\ items <> [].
Proof.
  induction query as [|[key value] rest IH]; simpl; intros fp e H;
    [discriminate|].
  destruct (nullish value) eqn:Hn.
  - destruct (IH _ _ H) as [He [k [items [Hin Hne]]]].
    split; [exact He|]. exists k, items. auto.
  - destruct value; try discriminate Hn;
      try (destruct (IH _ _ H) as [He [k [its [Hin Hne]]]];
           split; [exact He|]; exists k, its; auto).
    destruct (push_all (key +++ "[]") fp items) as [fp1|e1] eqn:E.
    + destruct (IH _ _ H) as [He [k [its [Hin Hne]]]].
      split; [exact He|]. exists k, its. auto.
    + injection H as <-. destruct (push_all_throws _ _ _ _ E) as [He Hne].
      split; [exact He|]. exists key, items. auto.
Qed.

(** X10.  The only exception the formatter can raise is the failed
    [push], and only a filter with a non-empty array can raise it: a
    filter without one always formats. *)
Theorem formatQueryParams_throws_only_on_push (query : obj) :
  (forall e,
      formatQueryParams query = Throw e ->
      e = TypeError "formattedParams[paramKey].push is not a function"
      /\ exists k items, In (k, JArr items) query /\ items <> [])
  /\ ((forall k items, In (k, JArr items) query -> items = []) ->
      exists m, formatQueryParams query = Ret m).
Proof.
  split; [intros e H; exact (format_entries_throws query [] e H)|].
  intro Hnone. destruct (formatQueryParams query) as [m|e] eqn:E;
    [now exists m|].
  destruct (format_entries_throws query [] e E) as [_ [k [items [Hin Hne]]]].
  elim Hne. exact (Hnone k items Hin).
Qed.

Lemma formatQueryParams_throws_only_on_push_witness :
  exists m,
    formatQueryParams [("r", JObj [("min", JNum 1)]); ("r[min]", JNum 5)]
    = Ret m.
Proof.
  apply (proj2 (formatQueryParams_throws_only_on_push
                  [("r", JObj [("min", JNum 1)]); ("r[min]", JNum 5)])).
  simpl. intros k items [H|[H|[]]]; discriminate H.
Defined.




End FormatterMore.

(* ================================================================= *)
(** ** Requests sent by a run *)

Section Requests.

Import ApolloClient Spec Obs.

Variable P : request -> Prop.

Lemma sends_weaken {A} (a b : nat) (m : M A) :
  a <= b -> sends P a m -> sends P b m.
Proof.
  intros Hab Hm w. destruct (Hm w) as [reqs [Hs [Hl Hp]]].
  exists reqs. repeat split; [exact Hs|lia|exact Hp].
Qed.

(** A step that leaves the requests alone. *)
Lemma sends_quiet {A} (n : nat) (m : M A) :
  (forall w, sent (snd (m w)) = sent w) -> sends P n m.
Proof.
  intros H w. exists []. rewrite H, app_nil_r.
  repeat split; [simpl; lia|constructor].
Qed.

Lemma sends_bind {A B} (a b : nat) (m : M A) (k : A -> M B) :
  sends P a m -> (forall x, sends P b (k x)) -> sends P (a + b) (bind m k).
Proof.
  intros Hm Hk w. destruct (Hm w) as [r1 [Hs1 [Hl1 Hp1]]].
  unfold bind. destruct (m w) as [[x|e] w1]; simpl in Hs1.
  - destruct (Hk x w1) as [r2 [Hs2 [Hl2 Hp2]]].
    exists (r1 ++ r2). rewrite Hs2, Hs1, app_assoc, length_app.
    repeat split; [lia|]. apply Forall_app. now split.
  - exists r1. simpl. repeat split; [exact Hs1|lia|exact Hp1].
Qed.

Lemma sends_try {A} (a b : nat) (m : M A) (h : exn -> M A) :
  sends P a m -> (forall e, sends P b (h e)) ->
  sends P (a + b) (try_catch m h).
Proof.
  intros Hm Hh w. destruct (Hm w) as [r1 [Hs1 [Hl1 Hp1]]].
  unfold try_catch. destruct (m w) as [[x|e] w1]; simpl in Hs1.
  - exists r1. simpl. repeat split; [exact Hs1|lia|exact Hp1].
  - destruct (Hh e w1) as [r2 [Hs2 [Hl2 Hp2]]].
    exists (r1 ++ r2). rewrite Hs2, Hs1, app_assoc, length_app.
    repeat split; [lia|]. apply Forall_app. now split.
Qed.

Lemma sends_axios (n : nat) (r : request) :
  P r -> sends P (S n) (axios_send r).
Proof.
  intros Hr w. exists [r]. unfold axios_send.
  destruct (upstream w (sent w) r); simpl;
    (repeat split; [lia|now constructor]).
Qed.

Lemma sends_stripUrl (n : nat) (url : jsval) : sends P n (stripUrl url).
Proof. apply sends_quiet. intro w. now rewrite stripUrl_run. Qed.

Lemma sends_lift {A} (n : nat) (o : outcome A) : sends P n (lift o).
Proof. now apply sends_quiet. Qed.

Lemma sends_guard (n : nat) (ok : bool) (e : exn) : sends P n (guard ok e).
Proof. apply sends_quiet. intro w. unfold guard. now destruct ok. Qed.

Lemma sends_ret {A} (n : nat) (a : A) : sends P n (ret a).
Proof. now apply sends_quiet. Qed.

Lemma sends_throw {A} (n : nat) (e : exn) : sends P n (@throw A e).
Proof. now apply sends_quiet. Qed.

Lemma sends_console_error (n : nat) (args : list log_arg) :
  sends P n (console_error args).
Proof. now apply sends_quiet. Qed.

Lemma sends_console_log (n : nat) (args : list log_arg) :
  sends P n (console_log args).
Proof. now apply sends_quiet. Qed.

(** Steps that cost nothing, then the rest within the same budget. *)
Ltac quiet_step :=
  first [ apply sends_ret | apply sends_throw | apply sends_lift
        | apply sends_guard | apply sends_console_error
        | apply sends_console_log | apply sends_stripUrl
        | apply sends_quiet; intro; reflexivity ].

Ltac spend :=
  repeat first
    [ quiet_step
    | match goal with
      | |- sends _ ?n (bind _ _) =>
          apply (sends_bind 0 n); [quiet_step|intro]
      | |- sends _ _ (match ?v with _ => _ end) => destruct v
      end ].

Lemma sends_on_response (n : nat) (r : response) : sends P n (on_response r).
Proof. unfold on_response. spend. Qed.

Lemma sends_on_error (n : nat) (e : exn) : sends P n (on_error e).
Proof. unfold on_error. spend. Qed.

Lemma sends_url_matches (n : nat) (sL sW item : jsval) :
  sends P n (url_matches sL sW item).
Proof. unfold url_matches. spend. Qed.

Lemma sends_filter_items (n : nat) (sL sW : jsval) (items : list jsval) :
  sends P n (filter_items (url_matches sL sW) items).
Proof.
  induction items as [|item rest IH]; cbn [filter_items]; [spend|].
  apply (sends_bind 0 n); [apply sends_url_matches|intro keep].
  apply (sends_bind 0 n); [apply (sends_weaken 0 0); [lia|]|intro kept].
  - clear IH. induction rest as [|x rest IH]; cbn [filter_items]; [spend|].
    apply (sends_bind 0 0); [apply sends_url_matches|intro].
    apply (sends_bind 0 0); [exact IH|intro]. spend.
  - spend.
Qed.

Variable c : t.

(** What [P] must grant: the requests the code builds. *)
Hypothesis instance_request :
  forall (m : http_method) (path : string) (body : option jsval)
         (params : option obj),
    P (mkRequest m (baseUrl c +++ path) body params (headers c)).

Hypothesis email_lookup_request :
  forall body : jsval,
    P (mkRequest POST
         "https://app.apollo.io/api/v1/mixed_people/add_to_my_prospects"
         (Some body) None (key_headers c)).

Hypothesis legacy_search_request :
  forall (url : string) (body : jsval),
    url = "https://api.apollo.io/v1/mixed_companies/search"
    \/ url = "https://api.apollo.io/v1/mixed_people/search" ->
    P (mkRequest POST url (Some body) None (search_headers c)).

Lemma sends_instance_post (n : nat) (path : string) (body : jsval)
    (params : option obj) :
  sends P (S n) (instance_post c (baseUrl c +++ path) body params).
Proof. apply sends_axios, instance_request. Qed.

Lemma sends_instance_get (n : nat) (path : string) (params : option obj) :
  sends P (S n) (instance_get c (baseUrl c +++ path) params).
Proof. apply sends_axios, instance_request. Qed.

Ltac one_call :=
  apply (sends_try 1 0); [|intro; apply sends_on_error];
  spend;
  match goal with
  | |- sends _ 1 (bind _ _) =>
      apply (sends_bind 1 0);
      [first [apply sends_instance_post | apply sends_instance_get]
      |intro; apply sends_on_response]
  end.

Lemma client_sends :
  (forall q, sends P 1 (peopleEnrichment c q))
  /\ (forall q, sends P 1 (bulkPeopleEnrichment c q))
  /\ (forall q, sends P 1 (organizationEnrichment c q))
  /\ (forall q, sends P 1 (peopleSearch c q))
  /\ (forall q, sends P 1 (organizationSearch c q))
  /\ (forall id, sends P 1 (organizationJobPostings c id))
  /\ (forall id, sends P 1 (getPersonEmail c id))
  /\ (forall q, sends P 2 (employeesOfCompany c q)).
Proof.
  repeat split; intros.
  - unfold peopleEnrichment. one_call.
  - unfold bulkPeopleEnrichment. one_call.
  - unfold organizationEnrichment. one_call.
  - unfold peopleSearch. one_call.
  - unfold organizationSearch. one_call.
  - unfold organizationJobPostings. one_call.
  - unfold getPersonEmail.
    apply (sends_try 1 0); [|intro; spend]. spend.
    apply (sends_bind 1 0);
      [apply sends_axios, email_lookup_request|intro response].
    spend.
  - unfold employeesOfCompany.
    apply (sends_try 2 0); [|intro; spend].
    unfold employeesOfCompany_try. spend.
    apply (sends_bind 1 1);
      [apply sends_axios, legacy_search_request; now left|intro r1].
    spend.
    apply (sends_bind 0 1); [apply sends_filter_items|intro companyObjs].
    spend.
    apply (sends_bind 1 0);
      [apply sends_axios, legacy_search_request; now right|intro r2].
    spend.
Qed.

Lemma dispatch_sends (name : string) (args : obj) :
  sends P (if name =? "employees_of_company" then 2 else 1)
    (Server.dispatch (Server.apollo_of c) name args).
Proof.
  destruct client_sends as [H1 [H2 [H3 [H4 [H5 [H6 [H7 H8]]]]]]].
  unfold Server.dispatch.
  destruct (name =? "employees_of_company") eqn:E.
  - apply String.eqb_eq in E. subst name.
    cbn [String.eqb Ascii.eqb Bool.eqb].
    apply (sends_bind 2 0); [apply H8|intro; apply sends_ret].
  - repeat match goal with
           | |- sends _ _ (if ?b then _ else _) => destruct b
           end;
      try apply sends_throw;
      try (apply (sends_bind 1 0); [|intro; apply sends_ret];
           cbn [Server.apollo_of Server.peopleEnrichment
                  Server.organizationEnrichment Server.peopleSearch
                  Server.organizationSearch Server.organizationJobPostings
                  Server.getPersonEmail]; auto).
    apply (sends_bind 0 1); [apply sends_guard|intro].
    apply (sends_bind 1 0); [apply H2|intro; apply sends_ret].
Qed.

Lemma call_tool_sends (request : Server.CallToolRequest) :
  sends P (if Server.name request =? "employees_of_company" then 2 else 1)
    (Server.call_tool (Server.apollo_of c) request).
Proof.
  unfold Server.call_tool.
  match goal with
  | |- sends _ ?n _ =>
      apply (sends_weaken (n + 0) n); [lia|apply (sends_try n 0)]
  end.
  - unfold Server.call_tool_try. apply dispatch_sends.
  - intro e. apply (sends_bind 0 0);
      [apply sends_console_error|intro; apply sends_ret].
Qed.

End Requests.

(** X12.  Every operation of the client only appends to the requests
    sent: at most one request for the seven single-call operations and at
    most two for employees-of-company.  The same budget holds for a whole
    tool call: two for [employees_of_company], one for any other name,
    registered or not. *)
Theorem operations_request_budget (c : ApolloClient.t) :
  ((forall q, Obs.sends (fun _ => True) 1 (ApolloClient.peopleEnrichment c q))
   /\ (forall q,
          Obs.sends (fun _ => True) 1 (ApolloClient.bulkPeopleEnrichment c q))
   /\ (forall q,
          Obs.sends (fun _ => True) 1 (ApolloClient.organizationEnrichment c q))
   /\ (forall q, Obs.sends (fun _ => True) 1 (ApolloClient.peopleSearch c q))
   /\ (forall q,
          Obs.sends (fun _ => True) 1 (ApolloClient.organizationSearch c q))
   /\ (forall id,
          Obs.sends (fun _ => True) 1
            (ApolloClient.organizationJobPostings c id))
   /\ (forall id,
          Obs.sends (fun _ => True) 1 (ApolloClient.getPersonEmail c id))
   /\ (forall q,
          Obs.sends (fun _ => True) 2 (ApolloClient.employeesOfCompany c q)))
  /\ forall request : Server.CallToolRequest,
      Obs.sends (fun _ => True)
        (if Server.name request =? "employees_of_company" then 2 else 1)
        (Server.call_tool (Server.apollo_of c) request).
Proof.
  split.
  - apply client_sends; intros; exact I.
  - intro request. apply call_tool_sends; intros; exact I.
Qed.

Lemma new_with_key (key : string) (env : option string) :
  key <> "" ->
  ApolloClient.new (Some key) env
  = Ret (ApolloClient.mkClient key "https://api.apollo.io/api/v1"
           [("Content-Type", "application/json");
            ("Cache-Control", "no-cache");
            ("x-api-key", key)]).
Proof.
  intro Hk. apply String.eqb_neq in Hk. unfold ApolloClient.new.
  rewrite Hk. cbn iota. now rewrite Hk.
Qed.

Lemma start_client (flag env : option string) (c : ApolloClient.t) :
  Main.start flag env = Ret c ->
  exists key,
    key <> ""
    /\ c = ApolloClient.mkClient key "https://api.apollo.io/api/v1"
             [("Content-Type", "application/json");
              ("Cache-Control", "no-cache");
              ("x-api-key", key)]
    /\ Main.resolve_api_key flag env = Ret key.
Proof.
  unfold Main.start. destruct (Main.resolve_api_key flag env) as [key|e] eqn:E;
    [|discriminate].
  assert (Hk : key <> "").
  { unfold Main.resolve_api_key in E.
    match type of E with
    | match ?o with _ => _ end = _ => destruct o as [s|]; [|discriminate]
    end.
    destruct (s =? "") eqn:Es; [discriminate|].
    apply String.eqb_neq in Es. congruence. }
  rewrite (new_with_key key env Hk). intro H. injection H as <-.
  exists key. auto.
Qed.

(** X13.  For a client built at start-up, every request that a tool call
    or a client operation sends carries the resolved API key in its key
    header and goes over https to [api.apollo.io] or [app.apollo.io]. *)
Theorem requests_are_authenticated (flag env : option string)
    (c : ApolloClient.t) :
  Main.start flag env = Ret c ->
  (forall request : Server.CallToolRequest,
      Obs.sends (Obs.authenticated c) 2
        (Server.call_tool (Server.apollo_of c) request))
  /\ (forall q, Obs.sends (Obs.authenticated c) 1
                  (ApolloClient.peopleSearch c q))
  /\ (forall id, Obs.sends (Obs.authenticated c) 1
                   (ApolloClient.getPersonEmail c id))
  /\ (forall q, Obs.sends (Obs.authenticated c) 2
                  (ApolloClient.employeesOfCompany c q)).
Proof.
  intro Hstart.
  destruct (start_client flag env c Hstart) as [key [Hkey [-> _]]].
  assert (H1 : forall (m : http_method) (path : string) (body : option jsval)
                      (params : option obj),
             Obs.authenticated
               (ApolloClient.mkClient key "https://api.apollo.io/api/v1"
                  [("Content-Type", "application/json");
                   ("Cache-Control", "no-cache");
                   ("x-api-key", key)])
               (mkRequest m ("https://api.apollo.io/api/v1" +++ path) body
                  params
                  [("Content-Type", "application/json");
                   ("Cache-Control", "no-cache");
                   ("x-api-key", key)])).
  { intros. split; [left; simpl; tauto|reflexivity]. }
  assert (H2 : forall body : jsval,
             Obs.authenticated
               (ApolloClient.mkClient key "https://api.apollo.io/api/v1"
                  [("Content-Type", "application/json");
                   ("Cache-Control", "no-cache");
                   ("x-api-key", key)])
               (mkRequest POST
                  "https://app.apollo.io/api/v1/mixed_people/add_to_my_prospects"
                  (Some body) None
                  [("X-Api-Key", key); ("Content-Type", "application/json")])).
  { intros. split; [right; simpl; tauto|reflexivity]. }
  assert (H3 : forall (url : string) (body : jsval),
             url = "https://api.apollo.io/v1/mixed_companies/search"
             \/ url = "https://api.apollo.io/v1/mixed_people/search" ->
             Obs.authenticated
               (ApolloClient.mkClient key "https://api.apollo.io/api/v1"
                  [("Content-Type", "application/json");
                   ("Cache-Control", "no-cache");
                   ("x-api-key", key)])
               (mkRequest POST url (Some body) None
                  [("Content-Type", "application/json"); ("X-Api-Key", key)])).
  { intros url body [->| ->]; (split; [right; simpl; tauto|reflexivity]). }
  split.
  - intro request.
    apply (sends_weaken _
             (if Server.name request =? "employees_of_company" then 2 else 1));
      [destruct (Server.name request =? "employees_of_company"); lia|].
    now apply call_tool_sends.
  - repeat split; intros; now apply client_sends.
Qed.

Lemma requests_are_authenticated_witness :
  Obs.sends (Obs.authenticated Fixtures.client) 2
    (ApolloClient.employeesOfCompany Fixtures.client Fixtures.acme_query).
Proof.
  apply (requests_are_authenticated (Some "key") None Fixtures.client
           eq_refl).
Defined.

(** X14.  Start-up resolves the API key from the command-line flag, else
    from the environment; an empty string counts as missing.  With a key
    the client is built on the fixed base URL with the key in its
    [x-api-key] header; with neither, start-up fails with the
    required-variable error. *)
Theorem start_resolves_key (flag env : option string) :
  (forall c : ApolloClient.t,
      Main.start flag env = Ret c ->
      ApolloClient.apiKey c <> ""
      /\ Main.resolve_api_key flag env = Ret (ApolloClient.apiKey c)
      /\ ApolloClient.baseUrl c = "https://api.apollo.io/api/v1"
      /\ In ("x-api-key", ApolloClient.apiKey c) (ApolloClient.headers c))
  /\ (forall key : string,
         key <> "" -> flag = Some key ->
         exists c, Main.start flag env = Ret c /\ ApolloClient.apiKey c = key)
  /\ (forall key : string,
         key <> "" -> flag = None \/ flag = Some "" -> env = Some key ->
         exists c, Main.start flag env = Ret c /\ ApolloClient.apiKey c = key)
  /\ (flag = None \/ flag = Some "" ->
      env = None \/ env = Some "" ->
      Main.start flag env
      = Throw (Error "APOLLO_IO_API_KEY environment variable is required")).
Proof.
  split; [|split; [|split]].
  - intros c H. destruct (start_client flag env c H) as [key [Hk [-> Hr]]].
    simpl. repeat split; auto.
  - intros key Hk ->. pose proof Hk as Hb. apply String.eqb_neq in Hb.
    unfold Main.start, Main.resolve_api_key.
    repeat (rewrite Hb; cbn iota).
    rewrite (new_with_key key env Hk). eexists. split; reflexivity.
  - intros key Hk Hf ->. pose proof Hk as Hb. apply String.eqb_neq in Hb.
    unfold Main.start, Main.resolve_api_key.
    destruct Hf as [-> | ->]; cbn [String.eqb]; repeat (rewrite Hb; cbn iota);
      rewrite (new_with_key key (Some key) Hk); eexists; split; reflexivity.
  - intros [-> | ->] [-> | ->]; reflexivity.
Qed.

Lemma start_resolves_key_witness :
  exists c,
    Main.start (Some "cli") (Some "env") = Ret c
    /\ ApolloClient.apiKey c = "cli".
Proof.
  apply (proj1 (proj2 (start_resolves_key (Some "cli") (Some "env"))) "cli");
    [discriminate|reflexivity].
Defined.

(* ================================================================= *)
(** ** Further properties of the handler *)

Section HandlerMore.

Import Spec Obs.

(** X15.  Every call-tool response, for any tool name and any client
    behind the handler, holds exactly one content item of type [text];
    it is flagged as an error exactly when the [try] block threw, and the
    flag is absent otherwise. *)
Theorem call_tool_response_shape (apollo : Server.Apollo)
    (request : Server.CallToolRequest) (w : world) :
  exists (txt : option string) (flag : option bool),
    fst (Server.call_tool apollo request w)
    = Ret (Server.mkResult [Server.mkText "text" txt] flag)
    /\ ((exists e, fst (Server.call_tool_try apollo request w) = Throw e) ->
        flag = Some true)
    /\ ((exists result,
            fst (Server.call_tool_try apollo request w) = Ret result) ->
        flag = None).
Proof.
  assert (Htry : Server.call_tool_try apollo request w
                 = Server.dispatch apollo (Server.name request)
                     (effective_args request) w) by reflexivity.
  rewrite call_tool_binding, Htry, dispatch_binding.
  destruct (binding apollo (Server.name request) (effective_args request))
    as [op|].
  - unfold bind. destruct (op w) as [[v|e] w']; simpl.
    + exists (stringify v), None. repeat split.
      intros [e He]. discriminate He.
    + eexists; exists (Some true). repeat split.
      intros [x Hx]. discriminate Hx.
  - simpl. eexists; exists (Some true). repeat split.
    intros [x Hx]. discriminate Hx.
Qed.

Lemma call_tool_sent (apollo : Server.Apollo)
    (request : Server.CallToolRequest) (op : M jsval) (w : world) :
  binding apollo (Server.name request) (effective_args request) = Some op ->
  sent (snd (Server.call_tool apollo request w)) = sent (snd (op w))
  /\ forall v, fst (op w) = Ret v ->
               fst (Server.call_tool apollo request w)
               = Ret (Server.text_result v).
Proof.
  intro Hb. rewrite call_tool_binding, Hb.
  destruct (op w) as [[v|e] w']; simpl; split; try reflexivity.
  - intros v0 H. now injection H as <-.
  - intros v0 H. discriminate H.
Qed.

(** One status-checking call: the request is recorded whatever the
    answer, and a 200 gives the payload. *)
Lemma one_call_run (req : request) (w : world) :
  sent (snd (try_catch (response <- axios_send req ;;
                        ApolloClient.on_response response)
               ApolloClient.on_error w))
  = sent w ++ [req]
  /\ forall r, upstream w (sent w) req = Resolved r -> status r = 200%Z ->
               fst (try_catch (response <- axios_send req ;;
                               ApolloClient.on_response response)
                      ApolloClient.on_error w)
               = Ret (data r).
Proof.
  unfold try_catch, bind, axios_send, ApolloClient.on_response.
  destruct (upstream w (sent w) req) as [r|e]; simpl.
  - destruct (status r =? 200)%Z eqn:E; simpl; split; try reflexivity;
      intros r0 H Hs; injection H as <-;
      apply Z.eqb_eq in Hs; congruence.
  - split; [reflexivity|]. intros r H. discriminate H.
Qed.

(** X16.  The three enrichment tools forward the caller's whole argument
    object: as the JSON body for people and bulk enrichment, as the raw
    query parameters for organisation enrichment.  Each sends exactly
    that one request whatever the answer, and on a 200 the response text
    is the serialised payload. *)
Theorem enrichment_tools_forward_arguments (c : ApolloClient.t) (args : obj)
    (w : world) :
  (sent (snd (Server.call_tool (Server.apollo_of c)
                (Server.mkCall "people_enrichment" (Some args)) w))
   = sent w ++ [mkRequest POST (ApolloClient.baseUrl c +++ "/people/match")
                  (Some (JObj args)) None (ApolloClient.headers c)]
   /\ forall r,
       upstream w (sent w)
         (mkRequest POST (ApolloClient.baseUrl c +++ "/people/match")
            (Some (JObj args)) None (ApolloClient.headers c))
       = Resolved r ->
       status r = 200%Z ->
       fst (Server.call_tool (Server.apollo_of c)
              (Server.mkCall "people_enrichment" (Some args)) w)
       = Ret (Server.text_result (data r)))
  /\ (sent (snd (Server.call_tool (Server.apollo_of c)
                   (Server.mkCall "organization_enrichment" (Some args)) w))
      = sent w ++ [mkRequest GET
                     (ApolloClient.baseUrl c +++ "/organizations/enrich")
                     None (Some args) (ApolloClient.headers c)]
      /\ forall r,
          upstream w (sent w)
            (mkRequest GET
               (ApolloClient.baseUrl c +++ "/organizations/enrich")
               None (Some args) (ApolloClient.headers c))
          = Resolved r ->
          status r = 200%Z ->
          fst (Server.call_tool (Server.apollo_of c)
                 (Server.mkCall "organization_enrichment" (Some args)) w)
          = Ret (Server.text_result (data r)))
  /\ (isArray (obj_get args "details") = true ->
      sent (snd (Server.call_tool (Server.apollo_of c)
                   (Server.mkCall "bulk_people_enrichment" (Some args)) w))
      = sent w ++ [mkRequest POST
                     (ApolloClient.baseUrl c +++ "/people/bulk_match")
                     (Some (JObj args)) None (ApolloClient.headers c)]
      /\ forall r,
          upstream w (sent w)
            (mkRequest POST
               (ApolloClient.baseUrl c +++ "/people/bulk_match")
               (Some (JObj args)) None (ApolloClient.headers c))
          = Resolved r ->
          status r = 200%Z ->
          fst (Server.call_tool (Server.apollo_of c)
                 (Server.mkCall "bulk_people_enrichment" (Some args)) w)
          = Ret (Server.text_result (data r))).
Proof.
  split; [|split].
  - destruct (call_tool_sent (Server.apollo_of c)
                (Server.mkCall "people_enrichment" (Some args))
                (ApolloClient.peopleEnrichment c args) w eq_refl) as [-> Hv].
    unfold ApolloClient.peopleEnrichment, ApolloClient.instance_post.
    match goal with
    | |- context [try_catch (console_log ?a ;; console_log ?b ;; ?m) ?h w] =>
        change (try_catch (console_log a ;; console_log b ;; m) h w)
          with (try_catch m h (emit Stdout b (emit Stdout a w)))
    end.
    match goal with
    | |- context [try_catch _ _ ?w1] =>
        destruct (one_call_run
                    (mkRequest POST
                       (ApolloClient.baseUrl c +++ "/people/match")
                       (Some (JObj args)) None (ApolloClient.headers c)) w1)
          as [Hs Hr]
    end.
    split; [exact Hs|].
    intros r Hup Hst. apply Hv. unfold ApolloClient.peopleEnrichment,
      ApolloClient.instance_post.
    match goal with
    | |- context [try_catch (console_log ?a ;; console_log ?b ;; ?m) ?h w] =>
        change (try_catch (console_log a ;; console_log b ;; m) h w)
          with (try_catch m h (emit Stdout b (emit Stdout a w)))
    end.
    now apply Hr.
  - destruct (call_tool_sent (Server.apollo_of c)
                (Server.mkCall "organization_enrichment" (Some args))
                (ApolloClient.organizationEnrichment c args) w eq_refl)
      as [-> Hv].
    destruct (one_call_run
                (mkRequest GET
                   (ApolloClient.baseUrl c +++ "/organizations/enrich")
                   None (Some args) (ApolloClient.headers c)) w) as [Hs Hr].
    split; [exact Hs|]. intros r Hup Hst. apply Hv. now apply Hr.
  - intro Hd.
    assert (Hb : binding (Server.apollo_of c) "bulk_people_enrichment"
                   (effective_args
                      (Server.mkCall "bulk_people_enrichment" (Some args)))
                 = Some (guard (truthy (obj_get args "details")
                                && isArray (obj_get args "details"))
                           (Error "The 'details' array is required for bulk people enrichment") ;;
                         ApolloClient.bulkPeopleEnrichment c args))
      by reflexivity.
    destruct (call_tool_sent (Server.apollo_of c)
                (Server.mkCall "bulk_people_enrichment" (Some args)) _ w Hb)
      as [-> Hv].
    assert (Hg : truthy (obj_get args "details")
                 && isArray (obj_get args "details") = true).
    { rewrite Hd. destruct (obj_get args "details"); try discriminate.
      reflexivity. }
    assert (Hrun : (guard (truthy (obj_get args "details")
                           && isArray (obj_get args "details"))
                      (Error "The 'details' array is required for bulk people enrichment") ;;
                    ApolloClient.bulkPeopleEnrichment c args) w
                   = ApolloClient.bulkPeopleEnrichment c args w).
    { unfold bind, guard. now rewrite Hg. }
    destruct (one_call_run
                (mkRequest POST
                   (ApolloClient.baseUrl c +++ "/people/bulk_match")
                   (Some (JObj args)) None (ApolloClient.headers c)) w)
      as [Hs Hr].
    rewrite Hrun. split; [exact Hs|].
    intros r Hup Hst. apply Hv. rewrite Hrun. now apply Hr.
Qed.

Lemma enrichment_tools_forward_arguments_witness :
  sent (snd (Server.call_tool (Server.apollo_of Fixtures.client)
               (Server.mkCall "bulk_people_enrichment"
                  (Some [("details", JArr []);
                         ("reveal_personal_emails", JBool true)]))
               (Fixtures.world_of (fun _ => Fixtures.refused))))
  = [mkRequest POST "https://api.apollo.io/api/v1/people/bulk_match"
       (Some (JObj [("details", JArr []);
                    ("reveal_personal_emails", JBool true)]))
       None (ApolloClient.headers Fixtures.client)].
Proof.
  exact (proj1 (proj2 (proj2 (enrichment_tools_forward_arguments
                                Fixtures.client
                                [("details", JArr []);
                                 ("reveal_personal_emails", JBool true)]
                                (Fixtures.world_of
                                   (fun _ => Fixtures.refused))))
                  eq_refl)).
Defined.

Lemma search_run (c : ApolloClient.t) (q fp : obj) (w : world) :
  ApolloClient.formatQueryParams q = Ret fp ->
  (sent (snd (ApolloClient.peopleSearch c q w))
   = sent w ++ [mkRequest POST
                  (ApolloClient.baseUrl c +++ "/mixed_people/search")
                  (Some (JObj [])) (Some fp) (ApolloClient.headers c)])
  /\ (sent (snd (ApolloClient.organizationSearch c q w))
      = sent w ++ [mkRequest POST
                     (ApolloClient.baseUrl c +++ "/mixed_companies/search")
                     (Some (JObj [])) (Some fp) (ApolloClient.headers c)]).
Proof.
  intro Hfmt.
  unfold ApolloClient.peopleSearch, ApolloClient.organizationSearch,
    ApolloClient.instance_post.
  split.
  - rewrite <- (proj1 (one_call_run
                         (mkRequest POST
                            (ApolloClient.baseUrl c +++ "/mixed_people/search")
                            (Some (JObj [])) (Some fp)
                            (ApolloClient.headers c)) w)).
    unfold try_catch, bind, lift. now rewrite Hfmt.
  - rewrite <- (proj1 (one_call_run
                         (mkRequest POST
                            (ApolloClient.baseUrl c
                             +++ "/mixed_companies/search")
                            (Some (JObj [])) (Some fp)
                            (ApolloClient.headers c)) w)).
    unfold try_catch, bind, lift. now rewrite Hfmt.
Qed.

Lemma obj_get_lookup_array (o : obj) (k : string) (items : list jsval) :
  obj_get o k = JArr items -> obj_lookup o k = Some (JArr items).
Proof.
  unfold obj_get. destruct (obj_lookup o k); [now intros ->|discriminate].
Qed.

Lemma param_names_set_array (o : obj) (k : string) (items items' : list jsval) :
  obj_lookup o k = Some (JArr items) ->
  flat_map param_names (obj_set o k (JArr items')) = flat_map param_names o.
Proof.
  induction o as [|[k0 v0] o IH]; simpl; [discriminate|].
  destruct (k0 =? k) eqn:E.
  - intro H. injection H as ->. reflexivity.
  - intro H. simpl. now rewrite IH.
Qed.

Lemma in_obj_set_other (o : obj) (k k' : string) (v v' : jsval) :
  In (k', v') o -> k' <> k -> In (k', v') (obj_set o k v).
Proof.
  intros Hin Hne. induction o as [|[k0 v0] o IH]; simpl in *; [contradiction|].
  destruct (k0 =? k) eqn:E.
  - destruct Hin as [H|H]; [|now right].
    injection H as -> ->. apply String.eqb_eq in E. contradiction.
  - destruct Hin as [H|H]; [now left|right; auto].
Qed.

Lemma in_obj_set_same (o : obj) (k : string) (v0 v : jsval) :
  obj_lookup o k = Some v0 -> In (k, v) (obj_set o k v).
Proof.
  induction o as [|[k0 v1] o IH]; simpl; [discriminate|].
  destruct (k0 =? k) eqn:E.
  - intros _. apply String.eqb_eq in E. subst k0. now left.
  - intro H. right. auto.
Qed.

Lemma sanitize_args_array (args : obj) (items : list jsval) :
  obj_get args Server.ranges_key = JArr items ->
  Server.sanitize_args "organization_search" args
  = obj_set args Server.ranges_key (JArr (map Server.sanitize_range items)).
Proof.
  intro H. unfold Server.sanitize_args.
  cbn [String.eqb Ascii.eqb Bool.eqb andb]. now rewrite H.
Qed.

(** X17.  An [organization_search] call whose arguments do not clash
    sends one POST to the company-search endpoint with an empty JSON body
    and the formatted arguments as query parameters: the employee-count
    ranges appear under the array-marker key with each hyphen form
    rewritten, and every other argument is formatted as the caller gave
    it. *)
Theorem organization_search_sends_sanitized (c : ApolloClient.t) (args : obj)
    (w : world) (items : list jsval) :
  no_clash args ->
  obj_get args Server.ranges_key = JArr items ->
  exists fp,
    ApolloClient.formatQueryParams
      (Server.sanitize_args "organization_search" args) = Ret fp
    /\ sent (snd (Server.call_tool (Server.apollo_of c)
                    (Server.mkCall "organization_search" (Some args)) w))
       = sent w ++ [mkRequest POST
                      (ApolloClient.baseUrl c +++ "/mixed_companies/search")
                      (Some (JObj [])) (Some fp) (ApolloClient.headers c)]
    /\ obj_lookup fp "organization_num_employees_ranges[]"
       = match items with
         | [] => None
         | _ => Some (JArr (map Server.sanitize_range items))
         end
    /\ forall entry,
        In entry args -> fst entry <> Server.ranges_key ->
        formatted_as fp entry.
Proof.
  intros Hnd Hget.
  pose proof (obj_get_lookup_array _ _ _ Hget) as Hl.
  assert (Hnd' : no_clash (Server.sanitize_args "organization_search" args)).
  { rewrite (sanitize_args_array args items Hget). unfold no_clash.
    now rewrite (param_names_set_array args _ items _ Hl). }
  destruct (formatQueryParams_no_clash _ Hnd') as [fp [Hfmt Hall]].
  exists fp. split; [exact Hfmt|]. split; [|split].
  - destruct (call_tool_sent (Server.apollo_of c)
                (Server.mkCall "organization_search" (Some args))
                (ApolloClient.organizationSearch c
                   (Server.sanitize_args "organization_search" args))
                w eq_refl) as [-> _].
    exact (proj2 (search_run c _ fp w Hfmt)).
  - assert (Hin : In (Server.ranges_key,
                      JArr (map Server.sanitize_range items))
                    (Server.sanitize_args "organization_search" args)).
    { rewrite (sanitize_args_array args items Hget).
      exact (in_obj_set_same _ _ _ _ Hl). }
    specialize (Hall _ Hin). cbn [formatted_as] in Hall.
    destruct items; exact Hall.
  - intros [k v] Hin Hk. apply Hall.
    rewrite (sanitize_args_array args items Hget).
    now apply in_obj_set_other.
Qed.

Lemma organization_search_sends_sanitized_witness :
  exists fp,
    ApolloClient.formatQueryParams
      (Server.sanitize_args "organization_search"
         [("q_organization_name", JStr "acme");
          (Server.ranges_key, JArr [JStr "11-50"; JStr "51,200"])])
    = Ret fp
    /\ sent (snd (Server.call_tool (Server.apollo_of Fixtures.client)
                    (Server.mkCall "organization_search"
                       (Some [("q_organization_name", JStr "acme");
                              (Server.ranges_key,
                               JArr [JStr "11-50"; JStr "51,200"])]))
                    (Fixtures.world_of (fun _ => Fixtures.refused))))
       = sent (Fixtures.world_of (fun _ => Fixtures.refused))
         ++ [mkRequest POST
               (ApolloClient.baseUrl Fixtures.client
                +++ "/mixed_companies/search")
               (Some (JObj [])) (Some fp)
               (ApolloClient.headers Fixtures.client)]
    /\ obj_lookup fp "organization_num_employees_ranges[]"
       = Some (JArr (map Server.sanitize_range
                       [JStr "11-50"; JStr "51,200"]))
    /\ forall entry,
        In entry [("q_organization_name", JStr "acme");
                  (Server.ranges_key, JArr [JStr "11-50"; JStr "51,200"])] ->
        fst entry <> Server.ranges_key ->
        formatted_as fp entry.
Proof.
  apply (organization_search_sends_sanitized Fixtures.client
           [("q_organization_name", JStr "acme");
            (Server.ranges_key, JArr [JStr "11-50"; JStr "51,200"])]
           (Fixtures.world_of (fun _ => Fixtures.refused))
           [JStr "11-50"; JStr "51,200"]).
  - unfold no_clash. simpl. repeat constructor; simpl; intuition discriminate.
  - reflexivity.
Defined.

(** X18.  A [people_search] call whose arguments do not clash sends one
    POST to the people-search endpoint with an empty JSON body and the
    arguments formatted as the caller gave them: this tool's
    employee-count ranges are not rewritten, a hyphen form goes out as it
    came. *)
Theorem people_search_sends_verbatim (c : ApolloClient.t) (args : obj) (w : world) :
  no_clash args ->
  exists fp,
    ApolloClient.formatQueryParams args = Ret fp
    /\ sent (snd (Server.call_tool (Server.apollo_of c)
                    (Server.mkCall "people_search" (Some args)) w))
       = sent w ++ [mkRequest POST
                      (ApolloClient.baseUrl c +++ "/mixed_people/search")
                      (Some (JObj [])) (Some fp) (ApolloClient.headers c)]
    /\ (forall entry, In entry args -> formatted_as fp entry)
    /\ forall (s : string) (rest : list jsval),
        In (Server.ranges_key, JArr (JStr s :: rest)) args ->
        obj_lookup fp "organization_num_employees_ranges[]"
        = Some (JArr (JStr s :: rest)).
Proof.
  intro Hnd.
  destruct (formatQueryParams_no_clash _ Hnd) as [fp [Hfmt Hall]].
  exists fp. split; [exact Hfmt|]. split; [|split].
  - destruct (call_tool_sent (Server.apollo_of c)
                (Server.mkCall "people_search" (Some args))
                (ApolloClient.peopleSearch c args) w eq_refl) as [-> _].
    exact (proj1 (search_run c _ fp w Hfmt)).
  - exact Hall.
  - intros s rest Hin. exact (Hall _ Hin).
Qed.

Lemma people_search_sends_verbatim_witness :
  exists fp,
    ApolloClient.formatQueryParams
      [(Server.ranges_key, JArr [JStr "11-50"])] = Ret fp
    /\ sent (snd (Server.call_tool (Server.apollo_of Fixtures.client)
                    (Server.mkCall "people_search"
                       (Some [(Server.ranges_key, JArr [JStr "11-50"])]))
                    (Fixtures.world_of (fun _ => Fixtures.refused))))
       = sent (Fixtures.world_of (fun _ => Fixtures.refused))
         ++ [mkRequest POST
               (ApolloClient.baseUrl Fixtures.client
                +++ "/mixed_people/search")
               (Some (JObj [])) (Some fp)
               (ApolloClient.headers Fixtures.client)]
    /\ (forall entry,
           In entry [(Server.ranges_key, JArr [JStr "11-50"])] ->
           formatted_as fp entry)
    /\ forall (s : string) (rest : list jsval),
        In (Server.ranges_key, JArr (JStr s :: rest))
          [(Server.ranges_key, JArr [JStr "11-50"])] ->
        obj_lookup fp "organization_num_employees_ranges[]"
        = Some (JArr (JStr s :: rest)).
Proof.
  apply (people_search_sends_verbatim Fixtures.client
           [(Server.ranges_key, JArr [JStr "11-50"])]
           (Fixtures.world_of (fun _ => Fixtures.refused))).
  unfold no_clash. simpl. repeat constructor; simpl; intuition discriminate.
Defined.

(** X19.  An [organization_job_postings] call always sends exactly one
    GET, whose path holds the string form of the [organization_id]
    argument; the identifier is not validated, so a call without it asks
    for the job postings of the organisation [undefined]. *)
Theorem organization_job_postings_sends (c : ApolloClient.t) (args : obj)
    (w : world) :
  sent (snd (Server.call_tool (Server.apollo_of c)
               (Server.mkCall "organization_job_postings" (Some args)) w))
  = sent w ++ [mkRequest GET
                 (ApolloClient.baseUrl c +++ "/organizations/"
                  +++ to_string (obj_get args "organization_id")
                  +++ "/job_postings")
                 None None (ApolloClient.headers c)]
  /\ (obj_lookup args "organization_id" = None ->
      sent (snd (Server.call_tool (Server.apollo_of c)
                   (Server.mkCall "organization_job_postings" (Some args))
                   w))
      = sent w ++ [mkRequest GET
                     (ApolloClient.baseUrl c
                      +++ "/organizations/undefined/job_postings")
                     None None (ApolloClient.headers c)]).
Proof.
  assert (H : sent (snd (Server.call_tool (Server.apollo_of c)
                           (Server.mkCall "organization_job_postings"
                              (Some args)) w))
              = sent w ++ [mkRequest GET
                             (ApolloClient.baseUrl c +++ "/organizations/"
                              +++ to_string (obj_get args "organization_id")
                              +++ "/job_postings")
                             None None (ApolloClient.headers c)]).
  { destruct (call_tool_sent (Server.apollo_of c)
                (Server.mkCall "organization_job_postings" (Some args))
                (ApolloClient.organizationJobPostings c
                   (obj_get args "organization_id"))
                w eq_refl) as [-> _].
    exact (proj1 (one_call_run _ w)). }
  split; [exact H|].
  intro Hmiss. rewrite H. unfold obj_get. now rewrite Hmiss.
Qed.

Lemma organization_job_postings_sends_witness :
  sent (snd (Server.call_tool (Server.apollo_of Fixtures.client)
               (Server.mkCall "organization_job_postings" (Some []))
               (Fixtures.world_of (fun _ => Fixtures.refused))))
  = sent (Fixtures.world_of (fun _ => Fixtures.refused))
    ++ [mkRequest GET
          (ApolloClient.baseUrl Fixtures.client
           +++ "/organizations/undefined/job_postings")
          None None (ApolloClient.headers Fixtures.client)].
Proof.
  exact (proj2 (organization_job_postings_sends Fixtures.client []
                  (Fixtures.world_of (fun _ => Fixtures.refused)))
           eq_refl).
Defined.

(** X20.  The handler does not enforce the required argument of
    [get_person_email] and [employees_of_company]: without a truthy
    [apollo_id], respectively [company], the call sends nothing and
    answers with the text [null] and no error flag. *)
Theorem missing_required_argument_is_null_text (c : ApolloClient.t)
    (args : obj) (w : world) :
  (truthy (obj_get args "apollo_id") = false ->
   fst (Server.call_tool (Server.apollo_of c)
          (Server.mkCall "get_person_email" (Some args)) w)
   = Ret (Server.mkResult [Server.mkText "text" (Some "null")] None)
   /\ sent (snd (Server.call_tool (Server.apollo_of c)
                   (Server.mkCall "get_person_email" (Some args)) w))
      = sent w)
  /\ (truthy (obj_get args "company") = false ->
      fst (Server.call_tool (Server.apollo_of c)
             (Server.mkCall "employees_of_company" (Some args)) w)
      = Ret (Server.mkResult [Server.mkText "text" (Some "null")] None)
      /\ sent (snd (Server.call_tool (Server.apollo_of c)
                      (Server.mkCall "employees_of_company" (Some args)) w))
         = sent w).
Proof.
  split; intro H.
  - destruct (call_tool_sent (Server.apollo_of c)
                (Server.mkCall "get_person_email" (Some args))
                (ApolloClient.getPersonEmail c (obj_get args "apollo_id"))
                w eq_refl) as [-> Hv].
    rewrite (getPersonEmail_missing_id c _ w H). split; [|reflexivity].
    apply (Hv JNull). now rewrite (getPersonEmail_missing_id c _ w H).
  - destruct (call_tool_sent (Server.apollo_of c)
                (Server.mkCall "employees_of_company" (Some args))
                (ApolloClient.employeesOfCompany c args)
                w eq_refl) as [-> Hv].
    rewrite (employeesOfCompany_missing_company c _ w H).
    split; [|reflexivity].
    apply (Hv JNull).
    now rewrite (employeesOfCompany_missing_company c _ w H).
Qed.

Lemma missing_required_argument_is_null_text_witness :
  fst (Server.call_tool (Server.apollo_of Fixtures.client)
         (Server.mkCall "get_person_email" (Some []))
         (Fixtures.world_of (fun _ => Fixtures.refused)))
  = Ret (Server.mkResult [Server.mkText "text" (Some "null")] None)
  /\ sent (snd (Server.call_tool (Server.apollo_of Fixtures.client)
                  (Server.mkCall "get_person_email" (Some []))
                  (Fixtures.world_of (fun _ => Fixtures.refused))))
     = sent (Fixtures.world_of (fun _ => Fixtures.refused)).
Proof.
  exact (proj1 (missing_required_argument_is_null_text Fixtures.client []
                  (Fixtures.world_of (fun _ => Fixtures.refused)))
           eq_refl).
Defined.

End HandlerMore.

(* ================================================================= *)
(** ** Further properties of the normalisations *)

Section NormalisationsMore.

Import Str Spec Obs.








Lemma stripUrl_string (s : string) (w : world) :
  s <> "" ->
  ApolloClient.stripUrl (JStr s) w
  = (Ret (JStr (toLowerCase
                  (remove_trailing_slash (remove_www (remove_protocol s))))),
     w).
Proof.
  intro Hs. apply String.eqb_neq in Hs.
  rewrite stripUrl_run. unfold stripped, strip_log. cbn [truthy].
  rewrite Hs. cbn [negb]. now rewrite append_console_nil.
Qed.



(** X22.  A lower-case scheme and a lower-case [www.] in front of a URL
    do not change its normal form: for a non-empty [s] that starts with
    neither, the five prefixed spellings normalise as [s] itself does. *)
Theorem stripUrl_ignores_scheme_and_www (s : string) (w : world) :
  s <> "" ->
  remove_protocol s = s ->
  remove_www s = s ->
  ApolloClient.stripUrl (JStr ("https://" +++ s)) w
  = ApolloClient.stripUrl (JStr s) w
  /\ ApolloClient.stripUrl (JStr ("http://" +++ s)) w
     = ApolloClient.stripUrl (JStr s) w
  /\ ApolloClient.stripUrl (JStr ("www." +++ s)) w
     = ApolloClient.stripUrl (JStr s) w
  /\ ApolloClient.stripUrl (JStr ("https://www." +++ s)) w
     = ApolloClient.stripUrl (JStr s) w
  /\ ApolloClient.stripUrl (JStr ("http://www." +++ s)) w
     = ApolloClient.stripUrl (JStr s) w.
Proof.
  intros Hs Hp Hw.
  assert (E1 : remove_www (remove_protocol ("https://" +++ s)) = s)
    by exact Hw.
  assert (E2 : remove_www (remove_protocol ("http://" +++ s)) = s)
    by exact Hw.
  assert (E3 : remove_www (remove_protocol ("www." +++ s)) = s)
    by reflexivity.
  assert (E4 : remove_www (remove_protocol ("https://www." +++ s)) = s)
    by reflexivity.
  assert (E5 : remove_www (remove_protocol ("http://www." +++ s)) = s)
    by reflexivity.
  rewrite (stripUrl_string s w Hs), Hp, Hw.
  rewrite !stripUrl_string by discriminate.
  now rewrite E1, E2, E3, E4, E5.
Qed.

Lemma stripUrl_ignores_scheme_and_www_witness :
  ApolloClient.stripUrl (JStr ("https://" +++ "Example.com/team/"))
    (Fixtures.world_of (fun _ => Fixtures.refused))
  = ApolloClient.stripUrl (JStr "Example.com/team/")
      (Fixtures.world_of (fun _ => Fixtures.refused)).
Proof.
  apply (stripUrl_ignores_scheme_and_www "Example.com/team/"
           (Fixtures.world_of (fun _ => Fixtures.refused)));
    [discriminate|reflexivity|reflexivity].
Defined.

Lemma sanitize_range_comma_form (items : list jsval) :
  (forall s, In (JStr s) items -> includes "-" s = false) ->
  map Server.sanitize_range items = items.
Proof.
  induction items as [|v items IH]; intro H; [reflexivity|].
  cbn [map]. rewrite IH by (intros s Hs; apply H; now right).
  f_equal. destruct v; try reflexivity.
  unfold Server.sanitize_range. now rewrite (H s (or_introl eq_refl)).
Qed.

Lemma obj_set_same (o : obj) (k : string) (v : jsval) :
  obj_lookup o k = Some v -> obj_set o k v = o.
Proof.
  induction o as [|[k0 v0] o IH]; simpl; [discriminate|].
  destruct (k0 =? k) eqn:E.
  - intro H. now injection H as ->.
  - intro H. now rewrite IH.
Qed.

(** X23.  The handler's sanitising step changes nothing unless the
    ranges argument of an [organization_search] call is an array holding
    a string with a hyphen: ranges already in comma form, and any
    ranges value that is not an array, go through as they came. *)
Theorem sanitize_args_comma_form_noop (name : string) (args : obj) :
  (forall items s,
      obj_get args Server.ranges_key = JArr items ->
      In (JStr s) items ->
      includes "-" s = false) ->
  Server.sanitize_args name args = args.
Proof.
  intro H. unfold Server.sanitize_args.
  destruct (name =? "organization_search"); [|reflexivity].
  cbn [andb].
  destruct (truthy (obj_get args Server.ranges_key)) eqn:Ht; [|reflexivity].
  assert (Hsame : Server.sanitizeRanges (obj_get args Server.ranges_key)
                  = obj_get args Server.ranges_key).
  { unfold Server.sanitizeRanges. rewrite Ht. cbn [negb orb].
    destruct (obj_get args Server.ranges_key) eqn:E; try reflexivity.
    cbn [isArray negb]. f_equal. apply sanitize_range_comma_form.
    intros s Hs. exact (H items s eq_refl Hs). }
  rewrite Hsame. apply obj_set_same.
  unfold obj_get in *.
  destruct (obj_lookup args Server.ranges_key); [reflexivity|discriminate].
Qed.

Lemma sanitize_args_comma_form_noop_witness :
  Server.sanitize_args "organization_search"
    [(Server.ranges_key, JArr [JStr "1,10"; JStr "11,50"]);
     ("page", JNum 1)]
  = [(Server.ranges_key, JArr [JStr "1,10"; JStr "11,50"]);
     ("page", JNum 1)].
Proof.
  apply sanitize_args_comma_form_noop.
  intros items s H. injection H as <-.
  simpl. intros [E|[E|[]]]; injection E as <-; reflexivity.
Defined.

End NormalisationsMore.

(* ================================================================= *)
(** ** The catalogue and the earlier handler *)

Section Catalogue.

Import Spec.

(** X24.  The list-tools catalogue and the call-tool switch agree: the
    eight catalogued names are pairwise distinct, a name is catalogued
    exactly when the switch binds it to an operation, every input schema
    is an object schema, and every argument a schema marks as required
    is one of its declared properties. *)
Theorem catalogue_matches_switch :
  NoDup (map Tools.name Tools.tools)
  /\ (forall (apollo : Server.Apollo) (name : string) (args : obj),
         In name (map Tools.name Tools.tools)
         <-> exists op, binding apollo name args = Some op)
  /\ (forall t, In t Tools.tools ->
                Schema.type_of (Tools.inputSchema t) = "object"
                /\ forall a, In a (Schema.required (Tools.inputSchema t)) ->
                             In a (Obs.keys
                                     (Schema.properties (Tools.inputSchema t)))).
Proof.
  split; [|split].
  - simpl. repeat constructor; simpl; intuition discriminate.
  - intros apollo name args. split.
    + intro Hin. apply binding_registered.
      simpl in Hin. unfold Server.tool_names. simpl. tauto.
    + intros [op Hop].
      destruct (in_dec string_dec name Server.tool_names) as [Hin|Hn].
      * unfold Server.tool_names in Hin. simpl in *. tauto.
      * rewrite (binding_unregistered apollo name args Hn) in Hop.
        discriminate Hop.
  - intros t Hin. simpl in Hin.
    repeat (destruct Hin as [<-|Hin];
            [split; [reflexivity|simpl; tauto]|]).
    contradiction.
Qed.

(** X25.  The earlier handler answers every request as the current one
    does, except that it does not know the bulk tool: it answers a
    [bulk_people_enrichment] call with the flagged unknown-tool text and
    sends nothing. *)
Theorem legacy_handler_agrees (apollo : Server.Apollo)
    (request : Server.CallToolRequest) (w : world) :
  (Server.name request <> "bulk_people_enrichment" ->
   Legacy.call_tool apollo request w = Server.call_tool apollo request w)
  /\ (Server.name request = "bulk_people_enrichment" ->
      Legacy.call_tool apollo request w
      = (Ret (Server.mkResult
                [Server.mkText "text"
                   (Some "Apollo.io API error: MCP error -32601: Unknown tool: bulk_people_enrichment")]
                (Some true)),
         emit Stderr
           [LStr "Error executing tool bulk_people_enrichment:";
            LExn (Server.McpError Server.MethodNotFound
                    "Unknown tool: bulk_people_enrichment")] w)).
Proof.
  split.
  - intro Hn. apply String.eqb_neq in Hn.
    unfold Legacy.call_tool, Server.call_tool, Legacy.call_tool_try,
      Server.call_tool_try, Legacy.dispatch, Server.dispatch.
    now rewrite Hn.
  - intro Hn. unfold Legacy.call_tool, Legacy.call_tool_try.
    rewrite Hn. reflexivity.
Qed.

Lemma legacy_handler_agrees_witness :
  Legacy.call_tool (Server.apollo_of Fixtures.client)
    (Server.mkCall "people_search" (Some Fixtures.sample_query))
    (Fixtures.world_of (fun _ => Fixtures.refused))
  = Server.call_tool (Server.apollo_of Fixtures.client)
      (Server.mkCall "people_search" (Some Fixtures.sample_query))
      (Fixtures.world_of (fun _ => Fixtures.refused)).
Proof.
  apply (proj1 (legacy_handler_agrees (Server.apollo_of Fixtures.client)
                  (Server.mkCall "people_search" (Some Fixtures.sample_query))
                  (Fixtures.world_of (fun _ => Fixtures.refused)))).
  discriminate.
Defined.

End Catalogue.

(* ================================================================= *)
(** ** Arguments that conform to a catalogue schema *)

Section Conformance.

Import Spec Obs Schema.

Lemma distinct_NoDup (l : list string) : distinct l = true -> NoDup l.
Proof.
  induction l as [|x l IH]; simpl; intro H; [constructor|].
  apply andb_prop in H as [Hx Hl]. constructor; [|now apply IH].
  intro Hin. apply negb_true_iff in Hx.
  assert (He : existsb (String.eqb x) l = true).
  { apply existsb_exists. exists x. split; [exact Hin|apply String.eqb_refl]. }
  congruence.
Qed.

Lemma NoDup_flat_map_elem {A B} (f : A -> list B) (l : list A) (x : A) :
  NoDup (flat_map f l) -> In x l -> NoDup (f x).
Proof.
  induction l as [|y l IH]; simpl; intros Hnd Hin; [contradiction|].
  destruct Hin as [->|Hin].
  - exact (NoDup_app_remove_r _ _ Hnd).
  - exact (IH (NoDup_app_remove_l _ _ Hnd) Hin).
Qed.

Lemma NoDup_flat_map_disjoint {A B} (f : A -> list B) (l : list A)
    (x y : A) (p : B) :
  NoDup (flat_map f l) -> NoDup l -> In x l -> In y l -> x <> y ->
  In p (f x) -> In p (f y) -> False.
Proof.
  induction l as [|z l IH]; simpl; intros Hnd Hl Hx Hy Hne Hpx Hpy;
    [contradiction|].
  inversion Hl as [|? ? Hz Hl']; subst.
  destruct Hx as [->|Hx], Hy as [->|Hy].
  - now apply Hne.
  - apply (NoDup_app_disjoint _ _ p Hnd Hpx).
    apply in_flat_map. now exists y.
  - apply (NoDup_app_disjoint _ _ p Hnd Hpy).
    apply in_flat_map. now exists x.
  - exact (IH (NoDup_app_remove_l _ _ Hnd) Hl' Hx Hy Hne Hpx Hpy).
Qed.

Lemma NoDup_flat_map_keys {B} (f : string * jsval -> list B) (l : obj) :
  (forall e, In e l -> NoDup (f e)) ->
  (forall e e' p, In e l -> In e' l -> fst e <> fst e' ->
                  In p (f e) -> In p (f e') -> False) ->
  NoDup (keys l) ->
  NoDup (flat_map f l).
Proof.
  unfold keys. induction l as [|e l IH]; simpl; intros Hin Hdis Hk;
    [constructor|].
  inversion Hk as [|? ? Hfresh Hk']; subst.
  apply NoDup_app.
  - apply Hin. now left.
  - apply IH; auto. intros e1 e2 p H1 H2. apply Hdis; now right.
  - intros p Hp Hp'. apply in_flat_map in Hp' as [e' [He' Hpe']].
    apply (Hdis e e' p); auto.
    intro E. apply Hfresh. rewrite E. now apply in_map.
Qed.

Lemma NoDup_map_incl {A B} (g : A -> B) (d l : list A) :
  NoDup (map g d) -> incl l d -> NoDup l -> NoDup (map g l).
Proof.
  intros Hd Hincl. induction l as [|x l IH]; simpl; intro Hl; [constructor|].
  inversion Hl as [|? ? Hx Hl']; subst.
  constructor; [|apply IH; auto; intros y Hy; apply Hincl; now right].
  intro Hin. apply in_map_iff in Hin as [y [Hg Hy]].
  assert (y = x); [|now subst].
  assert (Hxd : In x d) by (apply Hincl; now left).
  assert (Hyd : In y d) by (apply Hincl; now right).
  clear - Hd Hg Hxd Hyd.
  induction d as [|z d IH]; [contradiction|].
  simpl in Hd. inversion Hd as [|? ? Hz Hd']; subst.
  destruct Hxd as [->|Hxd], Hyd as [->|Hyd]; auto.
  - exfalso. apply Hz. rewrite <- Hg. now apply in_map.
  - exfalso. apply Hz. rewrite Hg. now apply in_map.
Qed.

Lemma obj_lookup_in (o : obj) (k : string) (v : jsval) :
  obj_lookup o k = Some v -> In (k, v) o.
Proof.
  induction o as [|[k0 v0] o IH]; simpl; [discriminate|].
  destruct (k0 =? k) eqn:E.
  - intro H. injection H as ->. apply String.eqb_eq in E. subst. now left.
  - intro H. right. auto.
Qed.

(** The names an entry addresses are among those its declaration
    allows, and are pairwise distinct. *)
Lemma param_names_declared (k : string) (s v : jsval) :
  NoDup (names_for (k, s)) ->
  value_ok s v = true ->
  incl (param_names (k, v)) (names_for (k, s))
  /\ NoDup (param_names (k, v)).
Proof.
  unfold value_ok, names_for, param_names. intros Hnd Hok.
  destruct v; try discriminate Hok.
  - (* boolean *)
    unfold scalar_ok in Hok. apply String.eqb_eq in Hok. rewrite Hok.
    split; [apply incl_refl|repeat constructor; tauto].
  - (* number *)
    unfold scalar_ok in Hok. apply String.eqb_eq in Hok. rewrite Hok.
    split; [apply incl_refl|repeat constructor; tauto].
  - (* string *)
    unfold scalar_ok in Hok. apply String.eqb_eq in Hok. rewrite Hok.
    split; [apply incl_refl|repeat constructor; tauto].
  - (* array *)
    apply andb_prop in Hok as [Ht _]. rewrite Ht.
    split; [apply incl_refl|repeat constructor; tauto].
  - (* object *)
    apply andb_prop in Hok as [Hok Hf]. apply andb_prop in Hok as [Ht Hd].
    apply String.eqb_eq in Ht. rewrite Ht in *.
    cbn [String.eqb Ascii.eqb Bool.eqb] in *.
    assert (Hincl : incl (map fst props) (map fst (properties s))).
    { intros x Hx. apply in_map_iff in Hx as [[x' vx] [<- Hx]].
      unfold fields_ok in Hf.
      pose proof (proj1 (forallb_forall _ _) Hf _ Hx) as Hfx. simpl in Hfx.
      destruct (obj_lookup (properties s) x') eqn:El; [|discriminate].
      apply obj_lookup_in in El. now apply (in_map fst) in El. }
    unfold field_names in *.
    rewrite <- (map_map fst (fun x : string => k +++ "[" +++ x +++ "]")
                  (properties s)) in *.
    rewrite <- (map_map fst (fun x : string => k +++ "[" +++ x +++ "]")
                  props).
    split.
    + apply (incl_map (fun x : string => k +++ "[" +++ x +++ "]")).
      exact Hincl.
    + apply (NoDup_map_incl (fun x : string => k +++ "[" +++ x +++ "]")
               (map fst (properties s))); auto.
      now apply distinct_NoDup.
Qed.

Lemma conforms_no_clash (schema : jsval) (args : obj) :
  NoDup (keys (properties schema)) ->
  NoDup (all_names schema) ->
  conforms schema args = true ->
  no_clash args.
Proof.
  intros Hkeys Hall Hc. unfold conforms in Hc.
  apply andb_prop in Hc as [Hd Hv].
  pose proof (proj1 (forallb_forall _ _) Hv) as Hent. clear Hv.
  assert (Hdecl : forall e, In e args ->
             exists s, In (fst e, s) (properties schema)
                       /\ incl (param_names e) (names_for (fst e, s))
                       /\ NoDup (param_names e)).
  { intros [k v] Hin. specialize (Hent _ Hin). simpl in Hent.
    destruct (obj_lookup (properties schema) k) as [s|] eqn:El;
      [|discriminate].
    apply obj_lookup_in in El. exists s. split; [exact El|].
    apply param_names_declared; [|exact Hent].
    exact (NoDup_flat_map_elem names_for _ _ Hall El). }
  unfold no_clash. apply NoDup_flat_map_keys.
  - intros e Hin. destruct (Hdecl e Hin) as [s [_ [_ Hn]]]. exact Hn.
  - intros e e' p Hin Hin' Hne Hp Hp'.
    destruct (Hdecl e Hin) as [s [Hs [Hi _]]].
    destruct (Hdecl e' Hin') as [s' [Hs' [Hi' _]]].
    assert (Hprops : NoDup (properties schema)).
    { unfold keys in Hkeys. exact (NoDup_map_inv fst _ Hkeys). }
    apply (NoDup_flat_map_disjoint names_for (properties schema)
             (fst e, s) (fst e', s') p Hall Hprops Hs Hs').
    + intro E. apply Hne. now injection E.
    + now apply Hi.
    + now apply Hi'.
  - now apply distinct_NoDup.
Qed.

(** X26.  Arguments that conform to the catalogue schema of either
    search tool (declared names only, each value of its declared type)
    never clash: the formatter returns, and every argument is found in
    the parameters as the flattening rule puts it. *)
Theorem search_schema_arguments_format (tool : string) (schema : jsval)
    (args : obj) :
  tool = "people_search" \/ tool = "organization_search" ->
  Tools.schema_of tool = Some schema ->
  conforms schema args = true ->
  no_clash args
  /\ exists m,
      ApolloClient.formatQueryParams args = Ret m
      /\ forall entry, In entry args -> formatted_as m entry.
Proof.
  intros Htool Hs Hc.
  assert (Hnd : no_clash args).
  { apply (conforms_no_clash schema); [| |exact Hc];
      destruct Htool as [-> | ->]; injection Hs as <-;
      apply distinct_NoDup; vm_compute; reflexivity. }
  split; [exact Hnd|]. now apply formatQueryParams_no_clash.
Qed.

Lemma search_schema_arguments_format_witness :
  no_clash [("q_organization_name", JStr "acme");
            ("organization_num_employees_ranges",
             JArr [JStr "1,10"; JStr "11-50"]);
            ("revenue_range", JObj [("min", JNum 300000)]);
            ("page", JNum 1)]
  /\ exists m,
      ApolloClient.formatQueryParams
        [("q_organization_name", JStr "acme");
         ("organization_num_employees_ranges",
          JArr [JStr "1,10"; JStr "11-50"]);
         ("revenue_range", JObj [("min", JNum 300000)]);
         ("page", JNum 1)] = Ret m
      /\ forall entry,
          In entry [("q_organization_name", JStr "acme");
                    ("organization_num_employees_ranges",
                     JArr [JStr "1,10"; JStr "11-50"]);
                    ("revenue_range", JObj [("min", JNum 300000)]);
                    ("page", JNum 1)] ->
          formatted_as m entry.
Proof.
  refine (search_schema_arguments_format "organization_search"
            (match Tools.schema_of "organization_search" with
             | Some s => s
             | None => JNull
             end) _ _ eq_refl _).
  - now right.
  - vm_compute. reflexivity.
Defined.

End Conformance.
